(** * learnEnglish.py: CSV words -> Gemini lexical record -> Anki note

    A shallow embedding of [src/learnEnglish.py] and the properties of its
    response extractor ([find_json_in_text]), generation client
    ([query_gemini_for_word]), note-store client ([note_exists],
    [add_anki_note]) and pipeline driver ([process_csv_file]).

    Conventions.
    - A Python [str] is a Rocq [string]; its characters are read as the code
      points below 256.
    - A Python [int] is a [Z].  A duration in seconds (a Python [float]) is a
      rational [Q]; rounding of the product [backoff * attempt] is not
      modelled.
    - The external world (the Gemini backend and the AnkiConnect server) is an
      abstract state [World] with one transition per kind of call; every
      function of the script that performs effects is a computation in the
      monad [M], which threads the world, may raise a Python exception and
      returns the list of the effects it performed, in order.
    - [json.loads] and [json.dumps] are library functions: they are section
      variables, so every theorem holds for every decoder and encoder. *)

From Stdlib Require Import ZArith QArith List String Ascii Bool Lia DecimalString.
From Equations Require Import Equations.
Import ListNotations.

Set Warnings "-register-all".

Open Scope string_scope.
Open Scope Z_scope.

(* ===================================================================== *)
(** ** Python strings *)

Module Str.

Definition chr (n : nat) : string := String (ascii_of_nat n) EmptyString.

(** The characters that cannot be written inside a literal. *)
Definition nl : string := chr 10.
Definition dq : string := chr 34.

Definition quoted (s : string) : string := dq ++ s ++ dq.

(** [str.isspace] on a code point below 256. *)
Definition isspace (c : ascii) : bool :=
  let n := nat_of_ascii c in
  ((9 <=? n) && (n <=? 13))%nat || ((28 <=? n) && (n <=? 32))%nat
  || (n =? 133)%nat || (n =? 160)%nat.

Fixpoint lstrip (s : string) : string :=
  match s with
  | EmptyString => EmptyString
  | String c s' => if isspace c then lstrip s' else s
  end.

(** [rstrip] drops the trailing run of white space: a character is kept
    when something that is kept follows it, or when it is not white. *)
Fixpoint rstrip (s : string) : string :=
  match s with
  | EmptyString => EmptyString
  | String c s' =>
      match rstrip s' with
      | EmptyString => if isspace c then EmptyString else String c EmptyString
      | r => String c r
      end
  end.

(** [s.strip()] *)
Definition strip (s : string) : string := rstrip (lstrip s).

(** [s[a:b]] for [0 <= a], [0 <= b]. *)
Definition slice (s : string) (a b : nat) : string := substring a (b - a) s.

(** [not s] *)
Definition is_empty (s : string) : bool :=
  match s with EmptyString => true | _ => false end.

Definition is_open (c : ascii) : bool := Ascii.eqb c "{".
Definition is_close (c : ascii) : bool := Ascii.eqb c "}".
Definition is_brace (c : ascii) : bool := is_open c || is_close c.

Fixpoint forallb (p : ascii -> bool) (s : string) : bool :=
  match s with
  | EmptyString => true
  | String c s' => p c && forallb p s'
  end.

Definition brace_free (s : string) : bool := forallb (fun c => negb (is_brace c)) s.
Definition open_free (s : string) : bool := forallb (fun c => negb (is_open c)) s.

End Str.

(* ===================================================================== *)
(** ** JSON values, as [json.loads] builds them *)

Inductive json : Type :=
| JNull
| JBool (b : bool)
| JInt (n : Z)
| JFloat (repr : string)          (* a float, identified by its [repr] *)
| JString (s : string)
| JArray (items : list json)
| JObject (members : list (string * json)).

(** A Python [dict] with text keys, in insertion order. *)
Definition dict (V : Type) : Type := list (string * V).

Module Dict.

(** [d.get(k)] : the value of the entry with key [k]. *)
Fixpoint get {V} (d : dict V) (k : string) : option V :=
  match d with
  | [] => None
  | (k', v) :: d' => if String.eqb k' k then Some v else get d' k
  end.

(** [d[k] = v] : replaces the value of an existing key in place, appends a
    new key at the end. *)
Fixpoint set {V} (d : dict V) (k : string) (v : V) : dict V :=
  match d with
  | [] => [(k, v)]
  | (k', v') :: d' =>
      if String.eqb k' k then (k', v) :: d' else (k', v') :: set d' k v
  end.

Definition keys {V} (d : dict V) : list string := map fst d.

End Dict.

(* ===================================================================== *)
(** ** Exceptions, effects and the monad of the script *)

(** The exceptions the script can meet; all are subclasses of [Exception]. *)
Inductive exn : Type :=
| ValueError (msg : string)
| AttributeError (msg : string)
| TypeError (msg : string)
| RequestException (msg : string)      (* [requests.post] failed *)
| HTTPError (status : Z)               (* [raise_for_status] *)
| JSONDecodeError (body : string)      (* [resp.json()] *)
| BackendError (msg : string)          (* raised by the genai SDK *)
| GeminiFailed (attempts : Z) (last_exc : option exn)
    (* RuntimeError("Gemini requests failed after N attempts. Last error: E") *)
| AnkiConnectError (err : json).
    (* RuntimeError("AnkiConnect error: E") *)

Inductive result (A : Type) : Type :=
| Ok (a : A)
| Raise (e : exn).
Arguments Ok {A} a.
Arguments Raise {A} e.

(** What [requests.post] gives back. *)
Inductive http_reply : Type :=
| PostRaises (e : exn)
| Response (status : Z) (body : string).

(** What [client.models.generate_content] gives back; [response.text] is
    [None] when the response has no text part. *)
Inductive backend_reply : Type :=
| GenRaises (e : exn)
| GenText (text : option string).

Inductive logmsg : Type :=
| LRetry (attempt total : Z) (e : exn) (wait : Q)
| LSkipping (word deck : string)
| LProcessing (row_number : Z) (word : string)
| LGenerated (word : string) (fields : dict string)
| LDryRun
| LAdded (result : json)
| LFailed (word : string) (row_number : Z) (e : exn)
| LExistsError (word : string) (e : exn).

Inductive level : Type := INFO | WARNING | ERROR.

(** The observable effects, in the order they happen. *)
Inductive event : Type :=
| EPost (url : string) (payload : json)
| EGenerate (model prompt : string)
| ESleep (seconds : Q)
| ELog (lvl : level) (msg : logmsg).

Definition ANKI_CONNECT_URL : string := "http://localhost:8765".
Definition DEFAULT_GEMINI_MODEL : string := "gemini-2.5-flash".

(** [raise_for_status] lets the status through. *)
Definition http_ok (status : Z) : bool := negb ((400 <=? status) && (status <? 600)).

(* ===================================================================== *)
(** ** The response extractor *)

(** The first element of a list of texts that decodes. *)
Fixpoint first_parse (loads : string -> option json) (l : list string) : option json :=
  match l with
  | [] => None
  | c :: l' =>
      match loads c with
      | Some v => Some v
      | None => first_parse loads l'
      end
  end.

Module Spans.

(** Inside a span whose brace depth is [S depth]: the text up to and
    including the brace that brings the depth back to zero, and what
    follows it; [None] when the depth never returns to zero. *)
Fixpoint close_span (depth : nat) (s : string) : option (string * string) :=
  match s with
  | EmptyString => None
  | String c s' =>
      if Str.is_open c then
        option_map (fun p => (String c (fst p), snd p)) (close_span (S depth) s')
      else if Str.is_close c then
        match depth with
        | O => Some (String c EmptyString, s')
        | S d => option_map (fun p => (String c (fst p), snd p)) (close_span d s')
        end
      else
        option_map (fun p => (String c (fst p), snd p)) (close_span depth s')
  end.

(** The balanced brace spans of a text, left to right: each starts at the
    first opening brace after the previous span and ends where the depth
    returns to zero.  [skip] characters belong to the span just taken. *)
Fixpoint balanced_spans_from (s : string) (skip : nat) : list string :=
  match s with
  | EmptyString => []
  | String c s' =>
      match skip with
      | S k => balanced_spans_from s' k
      | O =>
          if Str.is_open c then
            match close_span 0 s' with
            | Some (body, _) =>
                String c body :: balanced_spans_from s' (String.length body)
            | None => []
            end
          else balanced_spans_from s' 0
      end
  end.

Definition balanced_spans (s : string) : list string := balanced_spans_from s 0.

(** A text that is one balanced span: it opens with a brace and its depth
    returns to zero exactly at its last character. *)
Definition is_balanced_span (s : string) : bool :=
  match s with
  | String c s' =>
      Str.is_open c &&
      match close_span 0 s' with
      | Some (_, EmptyString) => true
      | _ => false
      end
  | EmptyString => false
  end.

(** The longest prefix without a brace, and the rest. *)
Fixpoint nonbrace_run (s : string) : string * string :=
  match s with
  | EmptyString => (EmptyString, EmptyString)
  | String c s' =>
      if Str.is_brace c then (EmptyString, s)
      else let (run, rest) := nonbrace_run s' in (String c run, rest)
  end.

(** [re.findall(r"\{[^{}]+\}", s, flags=re.DOTALL)]: the matches do not
    overlap and are taken left to right; a match is an opening brace, the
    longest run of at least one character that is not a brace, and a
    closing brace. *)
Fixpoint findall_from (s : string) (skip : nat) : list string :=
  match s with
  | EmptyString => []
  | String c s' =>
      match skip with
      | S k => findall_from s' k
      | O =>
          if Str.is_open c then
            match nonbrace_run s' with
            | (String r run, String c' _) =>
                if Str.is_close c' then
                  (String c (String r run ++ String c' EmptyString))
                    :: findall_from s' (S (String.length (String r run)))
                else findall_from s' 0
            | _ => findall_from s' 0
            end
          else findall_from s' 0
      end
  end.

Definition findall_nonnested (s : string) : list string := findall_from s 0.

End Spans.

Section Extractor.

(** [json.loads]: [None] when it raises. *)
Variable json_loads : string -> option json.

(** The scanner loop of [find_json_in_text], from position [i] of [text]
    with [rest] still to read.  [Some v]: the loop returned [v]; [None]: the
    loop ran to the end of the text. *)
Fixpoint scan_from (text rest : string) (i : nat)
         (start : option nat) (depth : Z) : option json :=
  match rest with
  | EmptyString => None
  | String ch rest' =>
      if Str.is_open ch then
        let start' := match start with None => Some i | Some _ => start end in
        scan_from text rest' (S i) start' (depth + 1)
      else if Str.is_close ch then
        let depth' := if depth >? 0 then depth - 1 else depth in
        match start with
        | Some st =>
            if depth' =? 0 then
              let candidate := Str.slice text st (i + 1) in
              match json_loads candidate with
              | Some v => Some v
              | None => scan_from text rest' (S i) None 0
              end
            else scan_from text rest' (S i) start depth'
        | None => scan_from text rest' (S i) start depth'
        end
      else scan_from text rest' (S i) start depth
  end.

Definition scan (text : string) : option json := scan_from text text 0 None 0.

Definition no_json_message : string :=
  "Could not find a valid JSON object in model response." ++ Str.nl
  ++ "Full response:" ++ Str.nl.

Definition find_json_in_text (text : string) : result json :=
  let text := Str.strip text in
  match json_loads text with
  | Some v => Ok v
  | None =>
      match scan text with
      | Some v => Ok v
      | None =>
          match first_parse json_loads (Spans.findall_nonnested text) with
          | Some v => Ok v
          | None => Raise (ValueError (no_json_message ++ text))
          end
      end
  end.

End Extractor.

(* ===================================================================== *)
(** ** Python operations on decoded JSON *)

Module Py.

(** [v.get(k, default)]: only a dict has [get]. *)
Definition get (v : json) (k : string) (default : json) : result json :=
  match v with
  | JObject d =>
      Ok (match Dict.get d k with Some x => x | None => default end)
  | _ => Raise (AttributeError "object has no attribute 'get'")
  end.

(** [len(v)] *)
Definition len (v : json) : result Z :=
  match v with
  | JString s => Ok (Z.of_nat (String.length s))
  | JArray l => Ok (Z.of_nat (List.length l))
  | JObject d => Ok (Z.of_nat (List.length d))
  | _ => Raise (TypeError "object has no len()")
  end.

(** [v[:80] + "..." if len(v) > 80 else v] *)
Definition shorten (v : string) : string :=
  if (80 <? String.length v)%nat then substring 0 80 v ++ "..." else v.

End Py.

(* ===================================================================== *)
(** ** The script *)

Section Script.

Variable World : Type.

(** [requests.post(url, json=payload, timeout=10)] *)
Variable requests_post : string -> json -> World -> http_reply * World.
(** [client.models.generate_content(model=model, contents=prompt)] *)
Variable generate_content : string -> string -> World -> backend_reply * World.
(** [json.loads]: [None] when it raises. *)
Variable json_loads : string -> option json.
(** [json.dumps(v, ensure_ascii=False)] *)
Variable json_dumps : json -> string.

(** *** The monad: world passing, exceptions, and the effects performed *)

Definition M (A : Type) : Type := World -> result A * World * list event.

Definition ret {A} (a : A) : M A := fun w => (Ok a, w, []).

Definition raise {A} (e : exn) : M A := fun w => (Raise e, w, []).

Definition bind {A B} (m : M A) (f : A -> M B) : M B :=
  fun w =>
    match m w with
    | (Ok a, w1, t1) => let '(r, w2, t2) := f a w1 in (r, w2, (t1 ++ t2)%list)
    | (Raise e, w1, t1) => (Raise e, w1, t1)
    end.

(** [try: m  except Exception as e: h e] *)
Definition try_except {A} (m : M A) (h : exn -> M A) : M A :=
  fun w =>
    match m w with
    | (Ok a, w1, t1) => (Ok a, w1, t1)
    | (Raise e, w1, t1) => let '(r, w2, t2) := h e w1 in (r, w2, (t1 ++ t2)%list)
    end.

Definition emit (ev : event) : M unit := fun w => (Ok tt, w, [ev]).

Definition lift {A} (r : result A) : M A := fun w => (r, w, []).

Notation "x <- c1 ;; c2" := (bind c1 (fun x => c2))
  (at level 61, c1 at next level, right associativity).
Notation "c1 ;;; c2" := (bind c1 (fun _ => c2))
  (at level 61, right associativity).

Definition logging (lvl : level) (msg : logmsg) : M unit := emit (ELog lvl msg).

(** [time.sleep(d)]: a negative duration is a [ValueError]. *)
Definition sleep (d : Q) : M unit :=
  if Qle_bool 0 d then emit (ESleep d)
  else raise (ValueError "sleep length must be non-negative").

(** [requests.post] followed by [raise_for_status]: the body of a response
    whose status is not an error. *)
Definition post_checked (payload : json) : M string :=
  fun w =>
    let (reply, w1) := requests_post ANKI_CONNECT_URL payload w in
    let t := [EPost ANKI_CONNECT_URL payload] in
    match reply with
    | PostRaises e => (Raise e, w1, t)
    | Response status body =>
        if (400 <=? status) && (status <? 600)
        then (Raise (HTTPError status), w1, t)
        else (Ok body, w1, t)
    end.

(** [resp.json()] *)
Definition resp_json (body : string) : M json :=
  match json_loads body with
  | Some v => ret v
  | None => raise (JSONDecodeError body)
  end.

(** *** Note store client *)

Definition find_query (word deck model : string) : string :=
  "deck:" ++ Str.quoted deck ++ " note:" ++ Str.quoted model
  ++ " Word:" ++ Str.quoted word.

Definition find_payload (word deck model : string) : json :=
  JObject [("action", JString "findNotes");
           ("version", JInt 6);
           ("params", JObject [("query", JString (find_query word deck model))])].

Definition note_exists (word deck model : string) : M bool :=
  try_except
    (body <- post_checked (find_payload word deck model) ;;
     ans <- resp_json body ;;
     note_ids <- lift (Py.get ans "result" (JArray [])) ;;
     n <- lift (Py.len note_ids) ;;
     ret (n >? 0))
    (fun e =>
       logging ERROR (LExistsError word e) ;;;
       ret false).

Definition fields_json (fields : dict string) : json :=
  JObject (map (fun kv => (fst kv, JString (snd kv))) fields).

Definition add_payload (fields : dict string) (deck model : string) : json :=
  let note := JObject [("deckName", JString deck);
                       ("modelName", JString model);
                       ("fields", fields_json fields);
                       ("tags", JArray [JString "generated_by_gemini"])] in
  JObject [("action", JString "addNote");
           ("version", JInt 6);
           ("params", JObject [("note", note)])].

Definition is_null (v : json) : bool :=
  match v with JNull => true | _ => false end.

Definition add_anki_note (fields : dict string) (deck model : string) : M json :=
  body <- post_checked (add_payload fields deck model) ;;
  ans <- resp_json body ;;
  err <- lift (Py.get ans "error" JNull) ;;
  if is_null err then lift (Py.get ans "result" JNull)
  else raise (AnkiConnectError err).

(** *** Generation client *)

Definition prompt_for (word : string) : string :=
  "You are a concise, accurate dictionary assistant." ++ Str.nl
  ++ "For the English word: " ++ Str.quoted word ++ Str.nl ++ Str.nl
  ++ "Return ONLY a single JSON object and nothing else with these exact keys:" ++ Str.nl
  ++ "  meaning: A concise English definition (one or two short sentences)." ++ Str.nl
  ++ "  translation: The Portuguese translation of the word (single word or short phrase)." ++ Str.nl
  ++ "  meaning_translation: The Portuguese translation of the meaning." ++ Str.nl
  ++ "  example_phrase: One short natural English sentence that uses the word exactly as given." ++ Str.nl
  ++ "  phrase_translation: The Portuguese translation of the example phrase." ++ Str.nl ++ Str.nl
  ++ "Make JSON well-formed and escape quotes as needed. Do NOT wrap the JSON in markdown, commentary, or text.".

Definition RECORD_KEYS : list string :=
  ["meaning"; "translation"; "meaning_translation"; "example_phrase";
   "phrase_translation"].

(** The text stored for one value: [v.strip()] for a [str],
    [json.dumps(v, ensure_ascii=False)] otherwise. *)
Definition field_text (v : json) : string :=
  match v with
  | JString s => Str.strip s
  | _ => json_dumps v
  end.

(** [for k in keys: v = parsed.get(k, ""); result[k] = ...] *)
Fixpoint normalize_keys (parsed : json) (keys : list string) (acc : dict string)
  : result (dict string) :=
  match keys with
  | [] => Ok acc
  | k :: keys' =>
      match Py.get parsed k (JString EmptyString) with
      | Ok v => normalize_keys parsed keys' (Dict.set acc k (field_text v))
      | Raise e => Raise e
      end
  end.

Definition normalize (parsed : json) : result (dict string) :=
  normalize_keys parsed RECORD_KEYS [].

(** [response = client.models.generate_content(...); raw = response.text] *)
Definition call_generate (model prompt : string) : M (option string) :=
  fun w =>
    let (reply, w1) := generate_content model prompt w in
    let t := [EGenerate model prompt] in
    match reply with
    | GenRaises e => (Raise e, w1, t)
    | GenText raw => (Ok raw, w1, t)
    end.

(** [find_json_in_text(raw)]: [raw.strip()] on [None] is an
    [AttributeError]. *)
Definition extract (raw : option string) : result json :=
  match raw with
  | Some text => find_json_in_text json_loads text
  | None => Raise (AttributeError "'NoneType' object has no attribute 'strip'")
  end.

(** The body of the [try] block: one attempt. *)
Definition attempt_once (model prompt : string) : M (dict string) :=
  raw <- call_generate model prompt ;;
  parsed <- lift (extract raw) ;;
  lift (normalize parsed).

(** [while attempt <= retries: ...] and the [raise] after it. *)
Equations? query_loop (model prompt : string) (retries : Z) (backoff : Q)
           (attempt : Z) (last_exc : option exn) : M (dict string)
  by wf (Z.to_nat (retries + 1 - attempt)) lt :=
  query_loop model prompt retries backoff attempt last_exc
    with Z_le_gt_dec attempt retries := {
    | left _ =>
        let attempt' := attempt + 1 in
        try_except
          (attempt_once model prompt)
          (fun e =>
             let wait := (backoff * inject_Z attempt')%Q in
             logging WARNING (LRetry attempt' (retries + 1) e wait) ;;;
             sleep wait ;;;
             query_loop model prompt retries backoff attempt' (Some e))
    | right _ => raise (GeminiFailed (retries + 1) last_exc) }.
Proof. lia. Defined.

Definition query_gemini_for_word (word model : string) (retries : Z) (backoff : Q)
  : M (dict string) :=
  query_loop model (prompt_for word) retries backoff 0 None.

(** *** Pipeline driver *)

Definition dict_get_default (d : dict string) (k : string) : string :=
  match Dict.get d k with Some v => v | None => EmptyString end.

Definition note_fields (word : string) (gemini : dict string) : dict string :=
  [("Word", word);
   ("Meaning", dict_get_default gemini "meaning");
   ("translation", dict_get_default gemini "translation");
   ("Meaning Translation", dict_get_default gemini "meaning_translation");
   ("example phrase", dict_get_default gemini "example_phrase");
   ("phrase translation", dict_get_default gemini "phrase_translation")].

(** The [try] block of the loop body. *)
Definition generate_and_add (word deck model_name gemini_model : string)
           (dry_run : bool) : M unit :=
  gemini <- query_gemini_for_word word gemini_model 2 1 ;;
  let fields := note_fields word gemini in
  logging INFO (LGenerated word (map (fun kv => (fst kv, Py.shorten (snd kv))) fields)) ;;;
  if dry_run then logging INFO LDryRun
  else
    res <- add_anki_note fields deck model_name ;;
    logging INFO (LAdded res).

(** What the loop body does with a word that is not empty. *)
Definition process_word (word : string) (row_number : Z)
           (deck model_name gemini_model : string) (dry_run : bool) : M unit :=
  found <- note_exists word deck model_name ;;
  if found then logging INFO (LSkipping word deck)
  else
    logging INFO (LProcessing row_number word) ;;;
    try_except
      (generate_and_add word deck model_name gemini_model dry_run)
      (fun e => logging ERROR (LFailed word row_number e)) ;;;
    sleep 1.

(** One iteration of [for row in reader], [row_number] already
    incremented; [continue] ends the iteration. *)
Definition process_row (row : list string) (row_number : Z)
           (deck model_name gemini_model : string) (dry_run : bool) : M unit :=
  match row with
  | [] => ret tt
  | cell :: _ =>
      let word := Str.strip cell in
      if Str.is_empty word then ret tt
      else process_word word row_number deck model_name gemini_model dry_run
  end.

Fixpoint process_rows (rows : list (list string)) (row_number : Z)
         (deck model_name gemini_model : string) (dry_run : bool) : M unit :=
  match rows with
  | [] => ret tt
  | row :: rows' =>
      let row_number := row_number + 1 in
      process_row row row_number deck model_name gemini_model dry_run ;;;
      process_rows rows' row_number deck model_name gemini_model dry_run
  end.

(** [process_csv_file], on the rows that [csv.reader] yields. *)
Definition process_csv_file (rows : list (list string))
           (deck model_name gemini_model : string) (dry_run : bool) : M unit :=
  process_rows rows 0 deck model_name gemini_model dry_run.

(** The loop of [process_csv_file] on the reader itself.  At each turn the
    reader gives the next row or raises (a line that does not decode, a
    [csv.Error]); it is asked outside the [try] block, so its exception
    leaves the function, after the rows before it were processed. *)
Fixpoint process_reader (items : list (result (list string))) (row_number : Z)
         (deck model_name gemini_model : string) (dry_run : bool) : M unit :=
  match items with
  | [] => ret tt
  | Ok row :: items' =>
      let row_number := row_number + 1 in
      process_row row row_number deck model_name gemini_model dry_run ;;;
      process_reader items' row_number deck model_name gemini_model dry_run
  | Raise e :: _ => raise e
  end.

Definition process_csv_reader (items : list (result (list string)))
           (deck model_name gemini_model : string) (dry_run : bool) : M unit :=
  process_reader items 0 deck model_name gemini_model dry_run.

(** *** Vocabulary of the statements *)

(** What the [try] block of [note_exists] makes of the reply to its
    request. *)
Definition exists_answer (reply : http_reply) : result bool :=
  match reply with
  | PostRaises e => Raise e
  | Response status body =>
      if http_ok status then
        match json_loads body with
        | None => Raise (JSONDecodeError body)
        | Some ans =>
            match Py.get ans "result" (JArray []) with
            | Raise e => Raise e
            | Ok note_ids =>
                match Py.len note_ids with
                | Raise e => Raise e
                | Ok n => Ok (n >? 0)
                end
            end
        end
      else Raise (HTTPError status)
  end.

(** The insertion request leaves the world as it was, as seen by the calls
    that follow (a note store that is a test double, for instance). *)
Definition insertion_inert : Prop :=
  forall fields deck model w,
    snd (requests_post ANKI_CONNECT_URL (add_payload fields deck model) w) = w.

(** [n] attempts in a row from world [w] all fail: the exceptions they
    raised, in order, and the world they leave. *)
Fixpoint attempts_fail (model prompt : string) (n : nat) (w : World)
  : option (list exn * World) :=
  match n with
  | O => Some ([], w)
  | S n' =>
      match attempt_once model prompt w with
      | (Raise e, w1, _) =>
          option_map (fun p => (e :: fst p, snd p))
                     (attempts_fail model prompt n' w1)
      | (Ok _, _, _) => None
      end
  end.

(** The effects of failed attempts number [attempt + 1], [attempt + 2], ...
    that raised [es]: the call, the warning and the sleep of each. *)
Fixpoint retry_trace (model prompt : string) (total : Z) (backoff : Q)
         (attempt : Z) (es : list exn) : list event :=
  match es with
  | [] => []
  | e :: es' =>
      let attempt' := attempt + 1 in
      let wait := (backoff * inject_Z attempt')%Q in
      [EGenerate model prompt;
       ELog WARNING (LRetry attempt' total e wait);
       ESleep wait]
      ++ retry_trace model prompt total backoff attempt' es'
  end%list.

End Script.


(* ===================================================================== *)
(** ** Vocabulary of the statements *)

Definition is_mapping (v : json) : bool :=
  match v with JObject _ => true | _ => false end.

Definition is_text (v : json) : bool :=
  match v with JString _ => true | _ => false end.

(** No text of the list decodes. *)
Definition none_decodes (loads : string -> option json) (l : list string) : Prop :=
  forall c, In c l -> loads c = None.

(** The action named by the payload of a request to AnkiConnect. *)
Definition action_of (payload : json) : option json :=
  match payload with
  | JObject d => Dict.get d "action"
  | _ => None
  end.

Definition is_action (name : string) (e : event) : bool :=
  match e with
  | EPost _ payload =>
      match action_of payload with
      | Some (JString a) => String.eqb a name
      | _ => false
      end
  | _ => false
  end.

(** An insertion call, an existence check, a generation call, a sleep. *)
Definition is_add_note (e : event) : bool := is_action "addNote" e.
Definition is_find_notes (e : event) : bool := is_action "findNotes" e.
Definition is_generate (e : event) : bool :=
  match e with EGenerate _ _ => true | _ => false end.
Definition is_sleep (e : event) : bool :=
  match e with ESleep _ => true | _ => false end.

Definition is_post (e : event) : bool :=
  match e with EPost _ _ => true | _ => false end.

(** The effects of a run. *)
Definition effects {A W : Type} (run : result A * W * list event) : list event :=
  snd run.

(** The read-side calls of a run: existence checks and generation calls. *)
Definition read_calls (t : list event) : list event :=
  filter (fun e => is_find_notes e || is_generate e) t.

Definition generate_calls (t : list event) : list event := filter is_generate t.
Definition sleeps (t : list event) : list event := filter is_sleep t.

Section AnkiProtocol.

Variable json_loads : string -> option json.

(** The request did not get a usable answer: [requests.post] raised, the
    status is an error, or the body is not JSON. *)
Definition transport_error (r : http_reply) : Prop :=
  match r with
  | PostRaises _ => True
  | Response status body => http_ok status = false \/ json_loads body = None
  end.

End AnkiProtocol.

(* ===================================================================== *)
(** ** Client construction and entry point *)

Module Config.

(** The truth value of an [Optional[str]]: [None] and the empty text are
    false. *)
Definition truthy (v : option string) : bool :=
  match v with
  | Some (String _ _) => true
  | _ => false
  end.

(** [a or b] *)
Definition py_or (a b : option string) : option string :=
  if truthy a then a else b.

(** A keyword argument of [genai.Client]. *)
Inductive kwarg : Type :=
| KText (s : string)
| KHttpOptions (api_version : string).  (* types.HttpOptions(api_version=...) *)

(** [create_genai_client]: the keyword arguments it passes to
    [genai.Client]. *)
Definition client_kwargs (api_key http_api_version : option string) : dict kwarg :=
  let kwargs := [] in
  let kwargs :=
    match api_key with
    | Some k => if truthy api_key then Dict.set kwargs "api_key" (KText k) else kwargs
    | None => kwargs
    end in
  let kwargs :=
    match http_api_version with
    | Some v =>
        if truthy http_api_version
        then Dict.set kwargs "http_options" (KHttpOptions v)
        else kwargs
    | None => kwargs
    end in
  kwargs.

(** The namespace that [argparse] gives to [main]. *)
Record args : Type := {
  arg_csv : string;
  arg_api_key : option string;
  arg_deck : string;
  arg_model : string;
  arg_gemini_model : string;
  arg_dry_run : bool
}.

(** [args.api_key or os.environ.get("GEMINI_API_KEY")
     or os.environ.get("GOOGLE_API_KEY")] *)
Definition select_api_key (a : args) (environ : dict string) : option string :=
  py_or (py_or (arg_api_key a) (Dict.get environ "GEMINI_API_KEY"))
        (Dict.get environ "GOOGLE_API_KEY").

End Config.

(** What [main] does, in order: its warning, the construction of the client,
    the opening of the file, and the effects of the pipeline. *)
Inductive main_event : Type :=
| MWarnNoKey
| MClient (kwargs : dict Config.kwarg)
| MOpen (path : string)
| MRun (e : event).

Section Main.

Variable World : Type.
Variable requests_post : string -> json -> World -> http_reply * World.
Variable generate_content : string -> string -> World -> backend_reply * World.
Variable json_loads : string -> option json.
Variable json_dumps : json -> string.
(** [genai.Client], called with the keyword arguments. *)
Variable genai_Client : dict Config.kwarg -> World -> result unit * World.
(** [open(csv_path, newline='', encoding='utf-8')]: the exception that
    [open] raises, or what the reader over the file then gives at each turn
    of the loop, a row or an exception. *)
Variable open_csv : string -> World -> result (list (result (list string))) * World.

Definition main (a : Config.args) (environ : dict string) (w : World)
  : result unit * World * list main_event :=
  let api_key := Config.select_api_key a environ in
  let warned := if Config.truthy api_key then [] else [MWarnNoKey] in
  let kwargs := Config.client_kwargs api_key None in
  match genai_Client kwargs w with
  | (Raise e, w1) => (Raise e, w1, (warned ++ [MClient kwargs])%list)
  | (Ok _, w1) =>
      match open_csv (Config.arg_csv a) w1 with
      | (Raise e, w2) =>
          (Raise e, w2, (warned ++ [MClient kwargs; MOpen (Config.arg_csv a)])%list)
      | (Ok items, w2) =>
          let '(r, w3, t) :=
            process_csv_reader World requests_post generate_content json_loads
                               json_dumps items (Config.arg_deck a) (Config.arg_model a)
                               (Config.arg_gemini_model a) (Config.arg_dry_run a) w2 in
          (r, w3, (warned ++ [MClient kwargs; MOpen (Config.arg_csv a)]
                          ++ map MRun t)%list)
      end
  end.

End Main.

(** The events of the pipeline among those of [main]. *)
Fixpoint pipeline_events (t : list main_event) : list event :=
  match t with
  | [] => []
  | MRun e :: t' => e :: pipeline_events t'
  | _ :: t' => pipeline_events t'
  end.

Definition is_warning (e : main_event) : bool :=
  match e with MWarnNoKey => true | _ => false end.

(* ===================================================================== *)
(** ** More vocabulary *)

(** The first of the values that is a text and is not empty. *)
Fixpoint first_nonempty (l : list (option string)) : option string :=
  match l with
  | [] => None
  | Some (String c s) :: _ => Some (String c s)
  | _ :: l' => first_nonempty l'
  end.

Definition is_client (e : main_event) : bool :=
  match e with MClient _ => true | _ => false end.

(** [c] is a contiguous piece of [text]. *)
Definition piece_of (c text : string) : Prop :=
  exists pre post, text = pre ++ c ++ post.

(** The word of a row: its first cell, trimmed, when that is not empty. *)
Definition row_word (row : list string) : option string :=
  match row with
  | [] => None
  | cell :: _ =>
      let word := Str.strip cell in
      if Str.is_empty word then None else Some word
  end.

(** A row reduced to its word. *)
Definition clean_row (row : list string) : list string :=
  match row_word row with
  | Some word => [word]
  | None => []
  end.

(** The words of the rows, in order. *)
Fixpoint words (rows : list (list string)) : list string :=
  match rows with
  | [] => []
  | row :: rows' =>
      match row_word row with
      | Some word => word :: words rows'
      | None => words rows'
      end
  end.

(** The read-side calls that the loop body makes for a word, in either
    mode: the find query, then, unless the existence check answers [True],
    the calls of the generation client from the world that the check
    leaves. *)
Section ReadSide.

Variable World : Type.
Variable requests_post : string -> json -> World -> http_reply * World.
Variable generate_content : string -> string -> World -> backend_reply * World.
Variable json_loads : string -> option json.
Variable json_dumps : json -> string.

Definition word_reads (word deck model_name gemini_model : string) (w : World)
  : list event :=
  EPost ANKI_CONNECT_URL (find_payload word deck model_name)
  :: match note_exists World requests_post json_loads word deck model_name w with
     | (Ok true, _, _) => []
     | (_, w1, _) =>
         generate_calls
           (effects (query_gemini_for_word World generate_content json_loads
                                           json_dumps word gemini_model 2 1 w1))
     end.

(** The world that the loop body leaves for the next word: in preview mode
    the world after the generation; in normal mode, when a record was
    generated, the world after the insertion request. *)
Definition word_world (dry_run : bool) (word deck model_name gemini_model : string)
           (w : World) : World :=
  match note_exists World requests_post json_loads word deck model_name w with
  | (Ok true, w1, _) => w1
  | (_, w1, _) =>
      match query_gemini_for_word World generate_content json_loads json_dumps
                                  word gemini_model 2 1 w1 with
      | (Ok gemini, w2, _) =>
          if dry_run then w2
          else snd (requests_post ANKI_CONNECT_URL
                                  (add_payload (note_fields word gemini)
                                               deck model_name) w2)
      | (Raise _, w2, _) => w2
      end
  end.

(** The read-side calls of a run over the rows: those of each word in the
    order of the rows, each from the world that the word before it leaves. *)
Fixpoint run_reads (dry_run : bool) (rows : list (list string))
         (deck model_name gemini_model : string) (w : World) : list event :=
  match rows with
  | [] => []
  | row :: rows' =>
      match row_word row with
      | None => run_reads dry_run rows' deck model_name gemini_model w
      | Some word =>
          (word_reads word deck model_name gemini_model w
             ++ run_reads dry_run rows' deck model_name gemini_model
                          (word_world dry_run word deck model_name gemini_model w))%list
      end
  end.

End ReadSide.

(* ===================================================================== *)
(** ** A concrete decoder, encoder and world, for the examples

    [Tiny.loads] decodes the fragment of JSON without escapes, fractions and
    exponents, and [Tiny.dumps] encodes with the separators of [json.dumps].
    The scripted world answers each call with the next reply of its script.
    The theorems below hold for every decoder, encoder and world; these are
    the ones the examples run on. *)

Module Tiny.

Definition is_ws (c : ascii) : bool :=
  Ascii.eqb c " " || (nat_of_ascii c =? 9)%nat || (nat_of_ascii c =? 10)%nat
  || (nat_of_ascii c =? 13)%nat.

Fixpoint skip_ws (s : string) : string :=
  match s with
  | String c s' => if is_ws c then skip_ws s' else s
  | EmptyString => EmptyString
  end.

Definition is_quote (c : ascii) : bool := (nat_of_ascii c =? 34)%nat.

(** After an opening quote: the text up to the closing quote, and the rest.
    A backslash or a control character is declined. *)
Fixpoint read_string (s : string) : option (string * string) :=
  match s with
  | EmptyString => None
  | String c s' =>
      if is_quote c then Some (EmptyString, s')
      else if (nat_of_ascii c =? 92)%nat || (nat_of_ascii c <? 32)%nat then None
      else option_map (fun p => (String c (fst p), snd p)) (read_string s')
  end.

Definition digit (c : ascii) : option Z :=
  let n := nat_of_ascii c in
  if ((48 <=? n) && (n <=? 57))%nat then Some (Z.of_nat (n - 48)) else None.

Fixpoint read_digits (s : string) (acc : Z) : Z * string :=
  match s with
  | EmptyString => (acc, s)
  | String c s' =>
      match digit c with
      | Some d => read_digits s' (10 * acc + d)
      | None => (acc, s)
      end
  end.

(** An integer without a leading zero, not followed by a fraction or an
    exponent. *)
Definition read_nat (s : string) : option (Z * string) :=
  match s with
  | String c s' =>
      match digit c with
      | Some d =>
          let (n, rest) := read_digits s' d in
          let leading_zero :=
            (d =? 0) && negb (String.length rest =? String.length s')%nat in
          let goes_on :=
            match rest with
            | String x _ => Ascii.eqb x "." || Ascii.eqb x "e" || Ascii.eqb x "E"
            | EmptyString => false
            end in
          if leading_zero || goes_on then None else Some (n, rest)
      | None => None
      end
  | EmptyString => None
  end.

Fixpoint strip_prefix (p s : string) : option string :=
  match p, s with
  | EmptyString, _ => Some s
  | String a p', String b s' => if Ascii.eqb a b then strip_prefix p' s' else None
  | _, EmptyString => None
  end.

Definition read_atom (s : string) : option (json * string) :=
  match strip_prefix "null" s with
  | Some r => Some (JNull, r)
  | None =>
  match strip_prefix "true" s with
  | Some r => Some (JBool true, r)
  | None =>
  match strip_prefix "false" s with
  | Some r => Some (JBool false, r)
  | None =>
  match strip_prefix "-" s with
  | Some r => option_map (fun p => (JInt (- fst p), snd p)) (read_nat r)
  | None => option_map (fun p => (JInt (fst p), snd p)) (read_nat s)
  end end end end.

Fixpoint value (fuel : nat) (s : string) : option (json * string) :=
  match fuel with
  | O => None
  | S f =>
      match skip_ws s with
      | EmptyString => None
      | String c r =>
          if Ascii.eqb c "{" then
            match skip_ws r with
            | String c' r' =>
                if Ascii.eqb c' "}" then Some (JObject [], r') else members f r []
            | EmptyString => None
            end
          else if Ascii.eqb c "[" then
            match skip_ws r with
            | String c' r' =>
                if Ascii.eqb c' "]" then Some (JArray [], r') else items f r []
            | EmptyString => None
            end
          else if is_quote c then
            option_map (fun p => (JString (fst p), snd p)) (read_string r)
          else read_atom (String c r)
      end
  end
with members (fuel : nat) (s : string) (acc : dict json) : option (json * string) :=
  match fuel with
  | O => None
  | S f =>
      match skip_ws s with
      | String c r =>
          if is_quote c then
            match read_string r with
            | Some (k, r1) =>
                match skip_ws r1 with
                | String c1 r2 =>
                    if Ascii.eqb c1 ":" then
                      match value f r2 with
                      | Some (v, r3) =>
                          match skip_ws r3 with
                          | String c3 r4 =>
                              if Ascii.eqb c3 "," then members f r4 (Dict.set acc k v)
                              else if Ascii.eqb c3 "}"
                                   then Some (JObject (Dict.set acc k v), r4)
                                   else None
                          | EmptyString => None
                          end
                      | None => None
                      end
                    else None
                | EmptyString => None
                end
            | None => None
            end
          else None
      | EmptyString => None
      end
  end
with items (fuel : nat) (s : string) (acc : list json) : option (json * string) :=
  match fuel with
  | O => None
  | S f =>
      match value f s with
      | Some (v, r) =>
          match skip_ws r with
          | String c r' =>
              if Ascii.eqb c "," then items f r' (acc ++ [v])%list
              else if Ascii.eqb c "]" then Some (JArray (acc ++ [v])%list, r')
                   else None
          | EmptyString => None
          end
      | None => None
      end
  end.

Definition loads (s : string) : option json :=
  match value (2 * String.length s + 2) s with
  | Some (v, r) => if Str.is_empty (skip_ws r) then Some v else None
  | None => None
  end.

Definition decimal (n : Z) : string := NilZero.string_of_int (Z.to_int n).

Fixpoint dumps (v : json) : string :=
  match v with
  | JNull => "null"
  | JBool true => "true"
  | JBool false => "false"
  | JInt n => decimal n
  | JFloat r => r
  | JString s => Str.quoted s
  | JArray l => "[" ++ String.concat ", " (map dumps l) ++ "]"
  | JObject d =>
      "{" ++ String.concat ", "
               (map (fun kv => match kv with
                               | (k, x) => Str.quoted k ++ ": " ++ dumps x
                               end) d)
      ++ "}"
  end.

End Tiny.

Module Scripted.

(** The replies still to give: to [requests.post], and to
    [generate_content]. *)
Record world : Type := { posts : list http_reply; gens : list backend_reply }.

Definition requests_post (url : string) (payload : json) (w : world)
  : http_reply * world :=
  match posts w with
  | r :: rs => (r, {| posts := rs; gens := gens w |})
  | [] => (PostRaises (RequestException "connection refused"), w)
  end.

Definition generate_content (model prompt : string) (w : world)
  : backend_reply * world :=
  match gens w with
  | r :: rs => (r, {| posts := posts w; gens := rs |})
  | [] => (GenRaises (BackendError "no reply"), w)
  end.

(** AnkiConnect's replies. *)
Definition found (ids : list Z) : http_reply :=
  Response 200 (Tiny.dumps (JObject [("result", JArray (map JInt ids));
                                     ("error", JNull)])).
Definition added (id : Z) : http_reply :=
  Response 200 (Tiny.dumps (JObject [("result", JInt id); ("error", JNull)])).
Definition failed (msg : string) : http_reply :=
  Response 200 (Tiny.dumps (JObject [("result", JNull); ("error", JString msg)])).

End Scripted.

(** The runs of the examples. *)
Module Examples.
Import Scripted.

(** Nothing answers: every call fails. *)
Definition silent : world := {| posts := []; gens := [] |}.

Definition member (k v : string) : string := Str.quoted k ++ ": " ++ v.

(** An object with the field [meaning] only. *)
Definition pet_span : string := "{" ++ member "meaning" (Str.quoted "a pet") ++ "}".

(** The same object inside a sentence. *)
Definition pet_reply : string := "Sure, here it is: " ++ pet_span ++ " Hope it helps.".

(** An object without [phrase_translation], with a text to trim and with
    values that are not texts. *)
Definition partial_reply : string :=
  "{" ++ member "meaning" (Str.quoted "  a small pet ") ++ ", "
      ++ member "translation" "5" ++ ", "
      ++ member "meaning_translation" "null" ++ ", "
      ++ member "example_phrase" ("[" ++ Str.quoted "The cat sleeps." ++ ", true]")
      ++ "}".

(** A text in which nothing decodes, with white space around it. *)
Definition noisy_text : string := "  see {oops} here ".

(** The note store has the word. *)
Definition has_word : world := {| posts := [found [1496]]; gens := [] |}.

(** The note store has both words. *)
Definition has_both : world :=
  {| posts := [found [1496]; found [1497]]; gens := [] |}.

(** The note store lacks the word; the backend answers [pet_reply] and
    the insertion gives the identifier 7. *)
Definition lacks_word : world :=
  {| posts := [found []; added 7]; gens := [GenText (Some pet_reply)] |}.

(** The backend answers [partial_reply]. *)
Definition answers_partial : world :=
  {| posts := []; gens := [GenText (Some partial_reply)] |}.

(** The record that [partial_reply] gives. *)
Definition partial_record : dict string :=
  [("meaning", "a small pet");
   ("translation", "5");
   ("meaning_translation", "null");
   ("example_phrase", "[" ++ Str.quoted "The cat sleeps." ++ ", true]");
   ("phrase_translation", EmptyString)].

Definition query (word : string) (retries : Z) (backoff : Q) :=
  query_gemini_for_word world generate_content Tiny.loads Tiny.dumps
                        word DEFAULT_GEMINI_MODEL retries backoff.

Definition run (rows : list (list string)) (dry_run : bool) :=
  process_csv_file world requests_post generate_content Tiny.loads Tiny.dumps
                   rows "EnglishAI" "EnglishAI" DEFAULT_GEMINI_MODEL dry_run.

Definition rows_from (rows : list (list string)) (row_number : Z) (dry_run : bool) :=
  process_rows world requests_post generate_content Tiny.loads Tiny.dumps
               rows row_number "EnglishAI" "EnglishAI" DEFAULT_GEMINI_MODEL dry_run.

(** [lacks_word] after the existence check. *)
Definition lacks_word_checked : world :=
  {| posts := [added 7]; gens := [GenText (Some pet_reply)] |}.

Definition check (word : string) :=
  note_exists world requests_post Tiny.loads word "EnglishAI" "EnglishAI".

Definition find_query_for (word : string) : event :=
  EPost ANKI_CONNECT_URL (find_payload word "EnglishAI" "EnglishAI").

Definition generation_of (word : string) : event :=
  EGenerate DEFAULT_GEMINI_MODEL (prompt_for word).

End Examples.

(** A world without state: the note store never has the word and accepts
    every note, and the backend always answers [Examples.pet_reply]. *)
Module Stateless.

Definition requests_post (url : string) (payload : json) (w : unit)
  : http_reply * unit :=
  match action_of payload with
  | Some (JString a) =>
      if String.eqb a "findNotes" then (Scripted.found [], w)
      else if String.eqb a "addNote" then (Scripted.added 1, w)
      else (Scripted.failed "unsupported action", w)
  | _ => (Scripted.failed "unsupported action", w)
  end.

Definition generate_content (model prompt : string) (w : unit)
  : backend_reply * unit :=
  (GenText (Some Examples.pet_reply), w).

Definition run (rows : list (list string)) (dry_run : bool) :=
  process_csv_file unit requests_post generate_content Tiny.loads Tiny.dumps
                   rows "EnglishAI" "EnglishAI" DEFAULT_GEMINI_MODEL dry_run tt.

End Stateless.

(** More runs, for the properties of the code beyond the pipeline's main
    path. *)
Module Cases.
Import Scripted.

(** An opening brace that is never closed, before the object. *)
Definition unclosed_reply : string := "{ " ++ Examples.pet_span.

(** The record that [Examples.pet_reply] gives. *)
Definition pet_record : dict string :=
  [("meaning", "a pet"); ("translation", EmptyString);
   ("meaning_translation", EmptyString); ("example_phrase", EmptyString);
   ("phrase_translation", EmptyString)].

(** The backend fails once, then answers. *)
Definition flaky : world :=
  {| posts := [];
     gens := [GenRaises (BackendError "timeout"); GenText (Some Examples.pet_reply)] |}.

Definition flaky_retried : world :=
  {| posts := []; gens := [GenText (Some Examples.pet_reply)] |}.

(** The backend answers a bare number. *)
Definition answers_number : world :=
  {| posts := []; gens := [GenText (Some "42")] |}.

(** The note store answers an object without keys. *)
Definition answers_empty_object : world :=
  {| posts := [Response 200 "{}"]; gens := [] |}.

(** The note store answers one identifier together with an error. *)
Definition found_with_error_body : string :=
  Tiny.dumps (JObject [("result", JArray [JInt 1]); ("error", JString "boom")]).

Definition found_with_error : world :=
  {| posts := [Response 200 found_with_error_body]; gens := [] |}.



(** The note store accepts the note, or refuses it. *)
Definition accepts_note : world := {| posts := [added 7]; gens := [] |}.
Definition refuses_note : world :=
  {| posts := [failed "deck was not found"]; gens := [] |}.

Definition cat_fields : dict string := note_fields "cat" pet_record.

Definition add (fields : dict string) :=
  add_anki_note world requests_post Tiny.loads fields "EnglishAI" "EnglishAI".

Definition attempt (word : string) :=
  attempt_once world generate_content Tiny.loads Tiny.dumps
               DEFAULT_GEMINI_MODEL (prompt_for word).

Definition failures (word : string) (n : nat) :=
  attempts_fail world generate_content Tiny.loads Tiny.dumps
                DEFAULT_GEMINI_MODEL (prompt_for word) n.

Definition word_run (word : string) (row_number : Z) (dry_run : bool) :=
  process_word world requests_post generate_content Tiny.loads Tiny.dumps
               word row_number "EnglishAI" "EnglishAI" DEFAULT_GEMINI_MODEL dry_run.

(** The command line [words.csv --dry-run], a client that is always
    constructed, and a file of one word, on the world without state. *)
Definition preview_args : Config.args :=
  {| Config.arg_csv := "words.csv";
     Config.arg_api_key := None;
     Config.arg_deck := "EnglishAI";
     Config.arg_model := "EnglishAI";
     Config.arg_gemini_model := DEFAULT_GEMINI_MODEL;
     Config.arg_dry_run := true |}.

Definition main_run (a : Config.args) (environ : dict string) :=
  main unit Stateless.requests_post Stateless.generate_content Tiny.loads Tiny.dumps
       (fun _ w => (Ok tt, w)) (fun _ w => (Ok [Ok ["cat"]], w)) a environ tt.

End Cases.

(* ===================================================================== *)
(** * Properties *)

(** ** Strings *)

Module StrFacts.
Import Str.

Lemma append_nil_r (s : string) : s ++ EmptyString = s.
Proof. induction s as [|c s IH]; simpl; [reflexivity | now rewrite IH]. Qed.

Lemma append_assoc (a b c : string) : (a ++ b) ++ c = a ++ b ++ c.
Proof. induction a as [|x a IH]; simpl; [reflexivity | now rewrite IH]. Qed.

Lemma length_append (a b : string) :
  String.length (a ++ b) = (String.length a + String.length b)%nat.
Proof. induction a as [|x a IH]; simpl; [reflexivity | now rewrite IH]. Qed.

Lemma append_snoc (a : string) (c : ascii) (b : string) :
  (a ++ String c EmptyString) ++ b = a ++ String c b.
Proof. now rewrite append_assoc. Qed.

Lemma substring_prefix (mid post : string) :
  substring 0 (String.length mid) (mid ++ post) = mid.
Proof.
  induction mid as [|c mid IH]; simpl.
  - destruct post; reflexivity.
  - now rewrite IH.
Qed.

Lemma substring_skip (pre s : string) (m : nat) :
  substring (String.length pre) m (pre ++ s) = substring 0 m s.
Proof. induction pre as [|c pre IH]; simpl; [reflexivity | exact IH]. Qed.

(** [text[a:b]] is the middle part when [a] and [b] are its bounds. *)
Lemma slice_middle (pre mid post : string) :
  slice (pre ++ mid ++ post) (String.length pre)
        (String.length pre + String.length mid) = mid.
Proof.
  unfold slice.
  replace (String.length pre + String.length mid - String.length pre)%nat
    with (String.length mid) by lia.
  rewrite substring_skip. apply substring_prefix.
Qed.

Lemma is_open_not_close (c : ascii) : is_open c = true -> is_close c = false.
Proof.
  unfold is_open, is_close. intros H.
  apply Ascii.eqb_eq in H. subst c. reflexivity.
Qed.

Lemma lstrip_nonspace (c : ascii) (s : string) :
  isspace c = false -> lstrip (String c s) = String c s.
Proof. intros H. simpl. now rewrite H. Qed.

Lemma rstrip_nonempty (s : string) (c : ascii) :
  isspace c = false -> rstrip (s ++ String c EmptyString) <> EmptyString.
Proof.
  intros Hc. induction s as [|x s IH]; simpl.
  - rewrite Hc. discriminate.
  - destruct (rstrip (s ++ String c EmptyString)); [contradiction | discriminate].
Qed.

(** Stripping on the right keeps everything up to a character that is not
    white space. *)
Lemma rstrip_keep (a : string) (c : ascii) (b : string) :
  isspace c = false ->
  rstrip (a ++ String c b) = a ++ String c (rstrip b).
Proof.
  intros Hc. induction a as [|x a IH]; simpl.
  - destruct (rstrip b); [now rewrite Hc | reflexivity].
  - rewrite IH. destruct a; reflexivity.
Qed.

Lemma lstrip_append (a : string) (c : ascii) (b : string) :
  isspace c = false ->
  lstrip (a ++ String c b) = lstrip a ++ String c b.
Proof.
  intros Hc. induction a as [|x a IH]; simpl.
  - now rewrite Hc.
  - destruct (isspace x); [exact IH | reflexivity].
Qed.

Lemma forallb_append (p : ascii -> bool) (a b : string) :
  forallb p (a ++ b) = forallb p a && forallb p b.
Proof.
  induction a as [|x a IH]; simpl; [reflexivity|].
  rewrite IH. now rewrite andb_assoc.
Qed.

Lemma forallb_lstrip (p : ascii -> bool) (s : string) :
  forallb p s = true -> forallb p (lstrip s) = true.
Proof.
  induction s as [|c s IH]; simpl; [reflexivity|].
  intros H. apply andb_true_iff in H as [Hc Hs].
  destruct (isspace c); [now apply IH | simpl; now rewrite Hc, Hs].
Qed.

Lemma forallb_rstrip (p : ascii -> bool) (s : string) :
  forallb p s = true -> forallb p (rstrip s) = true.
Proof.
  induction s as [|c s IH]; simpl; [reflexivity|].
  intros H. apply andb_true_iff in H as [Hc Hs].
  specialize (IH Hs).
  destruct (rstrip s) eqn:E.
  - destruct (isspace c); simpl; [reflexivity | now rewrite Hc].
  - simpl in *. now rewrite Hc, IH.
Qed.

(** Stripping a text whose first and last characters that are not white
    space are [c] and [k]. *)
Lemma strip_around (pre : string) (c : ascii) (b : string) (k : ascii) (post : string) :
  isspace c = false -> isspace k = false ->
  strip (pre ++ String c (b ++ String k post))
  = lstrip pre ++ String c (b ++ String k (rstrip post)).
Proof.
  intros Hc Hk. unfold strip.
  rewrite lstrip_append by assumption.
  replace (lstrip pre ++ String c (b ++ String k post))
    with ((lstrip pre ++ String c b) ++ String k post)
    by (now rewrite append_assoc).
  rewrite rstrip_keep by assumption.
  now rewrite append_assoc.
Qed.

Lemma open_not_space (c : ascii) : is_open c = true -> isspace c = false.
Proof. unfold is_open. intros H. apply Ascii.eqb_eq in H. now subst c. Qed.

Lemma close_not_space (c : ascii) : is_close c = true -> isspace c = false.
Proof. unfold is_close. intros H. apply Ascii.eqb_eq in H. now subst c. Qed.

Lemma brace_free_open_free (s : string) : brace_free s = true -> open_free s = true.
Proof.
  unfold brace_free, open_free.
  induction s as [|c s IH]; simpl; [reflexivity|].
  intros H. apply andb_true_iff in H as [Hc Hs].
  rewrite (IH Hs), andb_true_r.
  unfold is_brace in Hc. now destruct (is_open c).
Qed.

Lemma rstrip_cons_nonspace (c : ascii) (s : string) :
  isspace c = false -> rstrip (String c s) = String c (rstrip s).
Proof.
  intros Hc. cbn [rstrip]. destruct (rstrip s); [now rewrite Hc | reflexivity].
Qed.

Lemma rstrip_idempotent (s : string) : rstrip (rstrip s) = rstrip s.
Proof.
  induction s as [|c s IH]; [reflexivity|].
  cbn [rstrip]. destruct (rstrip s) as [|x r] eqn:E.
  - destruct (isspace c) eqn:Hc; [reflexivity|].
    cbn [rstrip]. now rewrite Hc.
  - cbn [rstrip]. cbn [rstrip] in IH. now rewrite IH.
Qed.

Lemma lstrip_head (s : string) :
  lstrip s = EmptyString
  \/ exists c r, lstrip s = String c r /\ isspace c = false.
Proof.
  induction s as [|c s IH]; [now left|].
  cbn [lstrip]. destruct (isspace c) eqn:Hc; [exact IH|].
  right. now exists c, s.
Qed.

(** Trimming a trimmed text changes nothing. *)
Lemma strip_idempotent (s : string) : strip (strip s) = strip s.
Proof.
  unfold strip.
  destruct (lstrip_head s) as [-> | (c & r & -> & Hc)]; [reflexivity|].
  rewrite (rstrip_cons_nonspace c r Hc).
  rewrite lstrip_nonspace by exact Hc.
  rewrite (rstrip_cons_nonspace c _ Hc).
  now rewrite rstrip_idempotent.
Qed.

End StrFacts.

(** ** The scanner of the extractor *)

Module SpansFacts.
Import Str Spans StrFacts.

Lemma close_span_split (s : string) : forall d body rest,
  close_span d s = Some (body, rest) -> s = body ++ rest.
Proof.
  induction s as [|c s IH]; simpl; intros d body rest H; [discriminate|].
  destruct (is_open c).
  - destruct (close_span (S d) s) as [[b r]|] eqn:E; simpl in H; [|discriminate].
    injection H as <- <-. simpl. f_equal. eapply IH; eauto.
  - destruct (is_close c).
    + destruct d as [|d].
      * injection H as <- <-. reflexivity.
      * destruct (close_span d s) as [[b r]|] eqn:E; simpl in H; [|discriminate].
        injection H as <- <-. simpl. f_equal. eapply IH; eauto.
    + destruct (close_span d s) as [[b r]|] eqn:E; simpl in H; [|discriminate].
      injection H as <- <-. simpl. f_equal. eapply IH; eauto.
Qed.

(** The characters of the span just taken are passed over. *)
Lemma balanced_spans_skip (a b : string) :
  balanced_spans_from (a ++ b) (String.length a) = balanced_spans_from b 0.
Proof.
  induction a as [|c a IH]; simpl; [|exact IH].
  destruct b; reflexivity.
Qed.

(** A text without an opening brace has no span. *)
Lemma balanced_spans_open_free (a b : string) :
  open_free a = true ->
  balanced_spans_from (a ++ b) 0 = balanced_spans_from b 0.
Proof.
  unfold open_free.
  induction a as [|c a IH]; simpl; intros H; [destruct b; reflexivity|].
  apply andb_true_iff in H as [Hc Ha].
  apply negb_true_iff in Hc. rewrite Hc. now apply IH.
Qed.

(** A brace-free text closes no span: the span closes in what follows. *)
Lemma close_span_brace_free (a b : string) (d : nat) :
  brace_free a = true ->
  close_span d (a ++ b) =
  option_map (fun p => (a ++ fst p, snd p)) (close_span d b).
Proof.
  unfold brace_free.
  induction a as [|c a IH]; simpl; intros H.
  - destruct (close_span d b) as [[x y]|]; reflexivity.
  - apply andb_true_iff in H as [Hc Ha].
    apply negb_true_iff in Hc. unfold is_brace in Hc.
    apply orb_false_iff in Hc as [Ho Hcl]. rewrite Ho, Hcl.
    rewrite (IH Ha).
    destruct (close_span d b) as [[x y]|]; reflexivity.
Qed.

(** A span that closes, closes with a closing brace. *)
Lemma close_span_last (s : string) : forall d body rest,
  close_span d s = Some (body, rest) ->
  exists b k, body = b ++ String k EmptyString /\ is_close k = true.
Proof.
  induction s as [|c s IH]; simpl; intros d body rest H; [discriminate|].
  assert (Hrec : forall d', option_map (fun p => (String c (fst p), snd p))
                                     (close_span d' s) = Some (body, rest) ->
                 exists b k, body = b ++ String k EmptyString /\ is_close k = true).
  { intros d' H'. destruct (close_span d' s) as [[b r]|] eqn:E; simpl in H'; [|discriminate].
    injection H' as <- <-. destruct (IH _ _ _ E) as (b' & k & -> & Hk).
    now exists (String c b'), k. }
  destruct (is_open c); [eauto|].
  destruct (is_close c) eqn:Hc; [|eauto].
  destruct d as [|d]; [|eauto].
  injection H as <- <-. now exists EmptyString, c.
Qed.

(** What follows the closing brace does not matter. *)
Lemma close_span_append (s : string) : forall d body rest more,
  close_span d s = Some (body, rest) ->
  close_span d (s ++ more) = Some (body, rest ++ more).
Proof.
  induction s as [|c s IH]; simpl; intros d body rest more H; [discriminate|].
  assert (Hrec : forall d', option_map (fun p => (String c (fst p), snd p))
                                     (close_span d' s) = Some (body, rest) ->
                 option_map (fun p => (String c (fst p), snd p))
                            (close_span d' (s ++ more)) = Some (body, rest ++ more)).
  { intros d' H'. destruct (close_span d' s) as [[b r]|] eqn:E; simpl in H'; [|discriminate].
    injection H' as <- <-. now rewrite (IH _ _ _ more E). }
  destruct (is_open c); [eauto|].
  destruct (is_close c); [|eauto].
  destruct d as [|d]; [|eauto].
  now injection H as <- <-.
Qed.

Lemma balanced_spans_brace_free (s : string) :
  brace_free s = true -> balanced_spans_from s 0 = [].
Proof.
  intros H. apply brace_free_open_free in H.
  rewrite <- (append_nil_r s). now rewrite balanced_spans_open_free.
Qed.

(** Every balanced span is a contiguous piece of the text. *)
Lemma balanced_spans_pieces (s : string) : forall skip c,
  In c (balanced_spans_from s skip) -> piece_of c s.
Proof.
  assert (Hcons : forall ch t c, piece_of c t -> piece_of c (String ch t)).
  { intros ch t c (pre & post & ->). now exists (String ch pre), post. }
  induction s as [|ch s IH]; intros skip c Hin; [contradiction|].
  cbn [balanced_spans_from] in Hin.
  destruct skip as [|k]; [|eauto].
  destruct (is_open ch); [|eauto].
  destruct (close_span 0 s) as [[body rem]|] eqn:E; [|contradiction].
  destruct Hin as [<-|Hin]; [|eauto].
  exists EmptyString, rem. cbn [append]. f_equal.
  now apply close_span_split in E.
Qed.

Lemma nonbrace_run_split (s : string) :
  s = fst (nonbrace_run s) ++ snd (nonbrace_run s).
Proof.
  induction s as [|c s IH]; [reflexivity|].
  cbn [nonbrace_run]. destruct (is_brace c); [reflexivity|].
  destruct (nonbrace_run s) as [run rest]. cbn [fst snd append] in *. now f_equal.
Qed.

(** Every match of the fallback pattern is a contiguous piece of the
    text. *)
Lemma findall_pieces (s : string) : forall skip c,
  In c (findall_from s skip) -> piece_of c s.
Proof.
  assert (Hcons : forall ch t c, piece_of c t -> piece_of c (String ch t)).
  { intros ch t c (pre & post & ->). now exists (String ch pre), post. }
  induction s as [|ch s IH]; intros skip c Hin; [contradiction|].
  cbn [findall_from] in Hin.
  destruct skip as [|k]; [|eauto].
  destruct (is_open ch); [|eauto].
  pose proof (nonbrace_run_split s) as Hsplit.
  destruct (nonbrace_run s) as [[|r run] [|c' rest]]; eauto.
  cbn [fst snd] in Hsplit.
  destruct (is_close c'); [|eauto].
  destruct Hin as [<-|Hin]; [|eauto].
  exists EmptyString, rest. cbn [append]. f_equal.
  rewrite Hsplit. cbn [append]. f_equal. now rewrite append_snoc.
Qed.

(** A text without an opening brace has no match of the fallback
    pattern. *)
Lemma findall_open_free (s : string) :
  open_free s = true -> findall_from s 0 = [].
Proof.
  unfold open_free.
  induction s as [|c s IH]; [reflexivity|].
  cbn [forallb findall_from]. intros H.
  apply andb_true_iff in H as [Hc Hs].
  apply negb_true_iff in Hc. rewrite Hc. now apply IH.
Qed.

End SpansFacts.

Section ExtractorFacts.
Import Str Spans StrFacts SpansFacts.

Variable json_loads : string -> option json.

Lemma scan_from_open text c rest i start depth :
  is_open c = true ->
  scan_from json_loads text (String c rest) i start depth
  = scan_from json_loads text rest (S i)
      (match start with None => Some i | Some _ => start end) (depth + 1).
Proof. intros H. simpl. now rewrite H. Qed.

Lemma scan_from_other text c rest i start depth :
  is_open c = false -> is_close c = false ->
  scan_from json_loads text (String c rest) i start depth
  = scan_from json_loads text rest (S i) start depth.
Proof. intros H1 H2. simpl. now rewrite H1, H2. Qed.

Lemma scan_from_close_outside text c rest i :
  is_open c = false -> is_close c = true ->
  scan_from json_loads text (String c rest) i None 0
  = scan_from json_loads text rest (S i) None 0.
Proof. intros H1 H2. simpl. now rewrite H1, H2. Qed.

Lemma scan_from_close_last text c rest i st :
  is_open c = false -> is_close c = true ->
  scan_from json_loads text (String c rest) i (Some st) 1
  = match json_loads (slice text st (i + 1)) with
    | Some v => Some v
    | None => scan_from json_loads text rest (S i) None 0
    end.
Proof. intros H1 H2. simpl. now rewrite H1, H2. Qed.

Lemma scan_from_close_inner text c rest i st depth :
  is_open c = false -> is_close c = true -> 1 < depth ->
  scan_from json_loads text (String c rest) i (Some st) depth
  = scan_from json_loads text rest (S i) (Some st) (depth - 1).
Proof.
  intros H1 H2 Hd. simpl. rewrite H1, H2.
  replace (depth >? 0) with true by (symmetry; apply Z.gtb_lt; lia).
  replace (depth - 1 =? 0) with false by (symmetry; apply Z.eqb_neq; lia).
  reflexivity.
Qed.

(** The loop between two spans, and inside a span whose depth is
    [S d] and whose characters read so far are [acc]. *)
Lemma scan_from_spans (rest : string) :
  (forall pre,
      scan_from json_loads (pre ++ rest) rest (String.length pre) None 0
      = first_parse json_loads (balanced_spans_from rest 0))
  /\
  (forall pre acc d,
      scan_from json_loads (pre ++ acc ++ rest) rest
                (String.length pre + String.length acc)
                (Some (String.length pre)) (Z.of_nat (S d))
      = match close_span d rest with
        | None => None
        | Some (body, rem) =>
            match json_loads (acc ++ body) with
            | Some v => Some v
            | None => first_parse json_loads (balanced_spans_from rem 0)
            end
        end).
Proof.
  induction rest as [|c rest [IHout IHin]]; [split; reflexivity|].
  split.
  - intros pre.
    destruct (is_open c) eqn:Ho.
    + rewrite scan_from_open by assumption.
      specialize (IHin pre (String c EmptyString) 0%nat).
      cbn [String.length append] in IHin.
      replace (String.length pre + 1)%nat with (S (String.length pre)) in IHin by lia.
      change (0 + 1) with (Z.of_nat 1).
      cbn [balanced_spans_from]. rewrite Ho.
      rewrite IHin.
      destruct (close_span 0 rest) as [[body rem]|] eqn:E; [|reflexivity].
      cbn [first_parse append].
      destruct (json_loads (String c body)); [reflexivity|].
      rewrite (close_span_split _ _ _ _ E). now rewrite balanced_spans_skip.
    + specialize (IHout (pre ++ String c EmptyString)).
      rewrite append_snoc, length_append in IHout. cbn [String.length] in IHout.
      replace (String.length pre + 1)%nat with (S (String.length pre)) in IHout by lia.
      cbn [balanced_spans_from]. rewrite Ho.
      destruct (is_close c) eqn:Hc.
      * rewrite scan_from_close_outside by assumption. exact IHout.
      * rewrite scan_from_other by assumption. exact IHout.
  - intros pre acc d.
    assert (Hi : S (String.length pre + String.length acc)
                 = (String.length pre + String.length (acc ++ String c EmptyString))%nat)
      by (rewrite length_append; simpl; lia).
    assert (Ht : pre ++ acc ++ String c rest
                 = pre ++ (acc ++ String c EmptyString) ++ rest)
      by (now rewrite append_snoc).
    cbn [close_span].
    destruct (is_open c) eqn:Ho.
    + rewrite scan_from_open by assumption.
      replace (Z.of_nat (S d) + 1) with (Z.of_nat (S (S d))) by lia.
      rewrite Hi, Ht, IHin.
      destruct (close_span (S d) rest) as [[body rem]|]; [|reflexivity].
      cbn [option_map fst snd]. now rewrite append_snoc.
    + destruct (is_close c) eqn:Hc.
      * destruct d as [|d].
        -- change (Z.of_nat 1) with 1.
           rewrite scan_from_close_last by assumption.
           replace (String.length pre + String.length acc + 1)%nat
             with (String.length pre + String.length (acc ++ String c EmptyString))%nat
             by (rewrite length_append; simpl; lia).
           rewrite Ht at 1. rewrite slice_middle.
           destruct (json_loads (acc ++ String c EmptyString)); [reflexivity|].
           specialize (IHout (pre ++ acc ++ String c EmptyString)).
           rewrite !append_assoc in IHout. cbn [append] in IHout.
           rewrite !length_append in IHout. cbn [String.length] in IHout.
           replace (String.length pre + (String.length acc + 1))%nat
             with (S (String.length pre + String.length acc)) in IHout by lia.
           exact IHout.
        -- rewrite scan_from_close_inner by (try assumption; lia).
           replace (Z.of_nat (S (S d)) - 1) with (Z.of_nat (S d)) by lia.
           rewrite Hi, Ht, IHin.
           destruct (close_span d rest) as [[body rem]|]; [|reflexivity].
           cbn [option_map fst snd]. now rewrite append_snoc.
      * rewrite scan_from_other by assumption.
        rewrite Hi, Ht, IHin.
        destruct (close_span d rest) as [[body rem]|]; [|reflexivity].
        cbn [option_map fst snd]. now rewrite append_snoc.
Qed.

(** The scanner loop returns the first balanced span that decodes. *)
Lemma scan_first_parse (text : string) :
  scan json_loads text = first_parse json_loads (balanced_spans text).
Proof.
  unfold scan, balanced_spans.
  exact (proj1 (scan_from_spans text) EmptyString).
Qed.

Lemma first_parse_none (l : list string) :
  none_decodes json_loads l -> first_parse json_loads l = None.
Proof.
  unfold none_decodes. induction l as [|c l IH]; intros H; [reflexivity|].
  simpl. rewrite (H c) by now left.
  apply IH. intros x Hx. apply H. now right.
Qed.

(** The first balanced span of a text is what the extractor returns when it
    decodes and the whole text does not. *)
Lemma find_json_in_text_first_span (pre span post : string) (v : json) :
  open_free pre = true ->
  is_balanced_span span = true ->
  json_loads (strip (pre ++ span ++ post)) = None ->
  json_loads span = Some v ->
  find_json_in_text json_loads (pre ++ span ++ post) = Ok v.
Proof.
  intros Hpre Hspan Hwhole Hv.
  destruct span as [|c s']; [discriminate|].
  simpl in Hspan. apply andb_true_iff in Hspan as [Ho Hcl].
  destruct (close_span 0 s') as [[body rem]|] eqn:E; [|discriminate].
  destruct rem; [|discriminate].
  pose proof (close_span_split _ _ _ _ E) as Hs'. rewrite append_nil_r in Hs'.
  destruct (close_span_last _ _ _ _ E) as (b & k & Hb & Hk).
  assert (Hstrip : strip (pre ++ String c s' ++ post)
                   = lstrip pre ++ String c s' ++ rstrip post).
  { rewrite Hs', Hb. cbn [append]. rewrite !append_snoc.
    apply strip_around; [now apply open_not_space | now apply close_not_space]. }
  unfold find_json_in_text. rewrite Hwhole, scan_first_parse, Hstrip.
  unfold balanced_spans.
  rewrite balanced_spans_open_free by (now apply forallb_lstrip).
  cbn [append balanced_spans_from]. rewrite Ho.
  rewrite (close_span_append _ _ _ _ (rstrip post) E).
  cbn [first_parse]. rewrite <- Hs', Hv. reflexivity.
Qed.

(** C4. The scanner loop returns the first, from left to right, of the
    balanced brace spans of the text that decodes: each span runs from an
    opening brace met at depth zero to the brace that brings the depth back
    to zero, and after a span that does not decode the scan resumes behind
    it.  Hence, for a text made of commentary without braces around one
    balanced span that decodes, when the whole trimmed text does not
    decode, that span is the only candidate and the extractor returns its
    decoded content. *)
Theorem extract_commentary_around_span :
  (forall text,
      scan json_loads text = first_parse json_loads (balanced_spans text))
  /\
  (forall pre span post v,
      brace_free pre = true ->
      brace_free post = true ->
      is_balanced_span span = true ->
      json_loads (strip (pre ++ span ++ post)) = None ->
      json_loads span = Some v ->
      balanced_spans (strip (pre ++ span ++ post)) = [span]
      /\ find_json_in_text json_loads (pre ++ span ++ post) = Ok v).
Proof.
  split; [exact scan_first_parse|].
  intros pre span post v Hpre Hpost Hspan Hwhole Hv.
  split.
  - destruct span as [|c s']; [discriminate|].
    pose proof Hspan as Hspan'.
    simpl in Hspan. apply andb_true_iff in Hspan as [Ho Hcl].
    destruct (close_span 0 s') as [[body rem]|] eqn:E; [|discriminate].
    destruct rem; [|discriminate].
    pose proof (close_span_split _ _ _ _ E) as Hs'. rewrite append_nil_r in Hs'.
    destruct (close_span_last _ _ _ _ E) as (b & k & Hb & Hk).
    assert (Hstrip : strip (pre ++ String c s' ++ post)
                     = lstrip pre ++ String c s' ++ rstrip post).
    { rewrite Hs', Hb. cbn [append]. rewrite !append_snoc.
      apply strip_around; [now apply open_not_space | now apply close_not_space]. }
    rewrite Hstrip. unfold balanced_spans.
    rewrite balanced_spans_open_free
      by (apply forallb_lstrip; now apply brace_free_open_free).
    cbn [append balanced_spans_from]. rewrite Ho.
    rewrite (close_span_append _ _ _ _ (rstrip post) E).
    rewrite Hs'. rewrite balanced_spans_skip.
    now rewrite balanced_spans_brace_free by (now apply forallb_rstrip).
  - apply find_json_in_text_first_span; try assumption.
    now apply brace_free_open_free.
Qed.

(** C7, amended. When the trimmed text does not decode, none of its
    balanced brace spans decodes and none of its non-nested brace matches
    decodes, the extractor raises the [ValueError] whose message ends with
    the trimmed text. *)
Theorem extract_fails_with_trimmed_text (text : string) :
  json_loads (strip text) = None ->
  none_decodes json_loads (balanced_spans (strip text)) ->
  none_decodes json_loads (findall_nonnested (strip text)) ->
  find_json_in_text json_loads text
  = Raise (ValueError (no_json_message ++ strip text)).
Proof.
  intros Hwhole Hspans Hmatches.
  unfold find_json_in_text.
  rewrite Hwhole, scan_first_parse.
  now rewrite (first_parse_none _ Hspans), (first_parse_none _ Hmatches).
Qed.

(** C10. When the whole trimmed text decodes to a value that is not an
    object (a number, a string, an array, ...), the extractor returns that
    value: its result need not be a mapping. *)
Theorem extract_returns_non_mapping (text : string) (v : json) :
  json_loads (strip text) = Some v ->
  is_mapping v = false ->
  find_json_in_text json_loads text = Ok v.
Proof.
  intros Hwhole _. unfold find_json_in_text. now rewrite Hwhole.
Qed.

(** *** More on the extractor *)

Lemma first_parse_some (l : list string) (v : json) :
  first_parse json_loads l = Some v ->
  exists c, In c l /\ json_loads c = Some v.
Proof.
  induction l as [|c l IH]; [discriminate|].
  cbn [first_parse]. destruct (json_loads c) as [x|] eqn:E.
  - intros H. injection H as ->. exists c. split; [now left | exact E].
  - intros H. destruct (IH H) as (c' & Hin & Hc'). exists c'. split; [now right | exact Hc'].
Qed.

(** X1. A value that the extractor returns was decoded from a contiguous
    piece of the trimmed text: the whole of it, one of its balanced spans, or
    one of its non-nested brace matches. *)
Theorem extract_result_from_piece (text : string) (v : json) :
  find_json_in_text json_loads text = Ok v ->
  exists c, piece_of c (strip text) /\ json_loads c = Some v.
Proof.
  unfold find_json_in_text. rewrite scan_first_parse.
  destruct (json_loads (strip text)) as [x|] eqn:Hwhole.
  - intros H. injection H as ->. exists (strip text). split; [|exact Hwhole].
    exists EmptyString, EmptyString. cbn [append]. now rewrite append_nil_r.
  - destruct (first_parse json_loads (balanced_spans (strip text))) as [x|] eqn:Hscan.
    + intros H. injection H as ->.
      destruct (first_parse_some _ _ Hscan) as (c & Hin & Hc).
      exists c. split; [|exact Hc]. now apply balanced_spans_pieces in Hin.
    + destruct (first_parse json_loads (findall_nonnested (strip text))) as [x|] eqn:Hre;
        [|discriminate].
      intros H. injection H as ->.
      destruct (first_parse_some _ _ Hre) as (c & Hin & Hc).
      exists c. split; [|exact Hc]. now apply findall_pieces in Hin.
Qed.

(** X2. A reply whose trimmed text has no opening brace and does not decode
    as a whole (the empty reply, plain prose) makes the extractor raise its
    [ValueError]: there is no candidate to try. *)
Theorem extract_without_brace_fails (text : string) :
  open_free (strip text) = true ->
  json_loads (strip text) = None ->
  find_json_in_text json_loads text
  = Raise (ValueError (no_json_message ++ strip text)).
Proof.
  intros Hfree Hwhole.
  unfold find_json_in_text. rewrite Hwhole, scan_first_parse.
  unfold balanced_spans, findall_nonnested.
  rewrite <- (append_nil_r (strip text)) at 1.
  rewrite balanced_spans_open_free by exact Hfree.
  now rewrite findall_open_free by exact Hfree.
Qed.

(** X3. An opening brace that is never closed ends the scan without a
    candidate, even when balanced objects follow it: only the fallback
    pattern can still find them. *)
Theorem extract_unclosed_brace (text pre : string) (c : ascii) (rest : string) :
  strip text = pre ++ String c rest ->
  open_free pre = true ->
  is_open c = true ->
  close_span 0 rest = None ->
  json_loads (strip text) = None ->
  scan json_loads (strip text) = None
  /\ find_json_in_text json_loads text
     = match first_parse json_loads (findall_nonnested (strip text)) with
       | Some v => Ok v
       | None => Raise (ValueError (no_json_message ++ strip text))
       end.
Proof.
  intros Htext Hpre Hc Hopen Hwhole.
  assert (Hscan : scan json_loads (strip text) = None).
  { rewrite scan_first_parse, Htext. unfold balanced_spans.
    rewrite balanced_spans_open_free by exact Hpre.
    cbn [balanced_spans_from]. now rewrite Hc, Hopen. }
  split; [exact Hscan|].
  unfold find_json_in_text. now rewrite Hwhole, Hscan.
Qed.

End ExtractorFacts.

(** ** The note store client *)

Section NoteStoreFacts.

Variable World : Type.
Variable requests_post : string -> json -> World -> http_reply * World.
Variable json_loads : string -> option json.

Local Abbreviation note_exists := (note_exists World requests_post json_loads).
Local Abbreviation exists_answer := (exists_answer json_loads).

(** The existence check is one request; an exception of its [try] block
    becomes an error in the log and the answer [False]. *)
Lemma note_exists_run (word deck model : string) (w : World) :
  let payload := find_payload word deck model in
  let (reply, w1) := requests_post ANKI_CONNECT_URL payload w in
  note_exists word deck model w
  = match exists_answer reply with
    | Ok b => (Ok b, w1, [EPost ANKI_CONNECT_URL payload])
    | Raise e => (Ok false, w1, [EPost ANKI_CONNECT_URL payload;
                                 ELog ERROR (LExistsError word e)])
    end.
Proof.
  cbv zeta.
  destruct (requests_post ANKI_CONNECT_URL (find_payload word deck model) w)
    as [reply w1] eqn:E.
  unfold note_exists, try_except, bind, post_checked, resp_json,
    lift, ret, raise, logging, emit, exists_answer, http_ok.
  rewrite E.
  destruct reply as [e|status body]; [reflexivity|].
  destruct ((400 <=? status) && (status <? 600)); [reflexivity|].
  cbn [negb].
  destruct (json_loads body) as [ans|]; [|reflexivity].
  destruct (Py.get ans "result" (JArray [])) as [ids|e]; [|reflexivity].
  destruct (Py.len ids) as [n|e]; reflexivity.
Qed.

(** *** More on the note store client *)

Local Abbreviation add_anki_note := (add_anki_note World requests_post json_loads).

(** X4. Whatever the reply, the existence check makes exactly one request,
    the find query for the word in the deck and note type, leaves the world
    as that request left it, and writes at most one log entry. *)
Theorem note_exists_one_request (word deck model : string) (w : World) :
  filter is_post (effects (note_exists word deck model w))
  = [EPost ANKI_CONNECT_URL (find_payload word deck model)]
  /\ snd (fst (note_exists word deck model w))
     = snd (requests_post ANKI_CONNECT_URL (find_payload word deck model) w)
  /\ (List.length (effects (note_exists word deck model w)) <= 2)%nat.
Proof.
  pose proof (note_exists_run word deck model w) as Hrun. cbv zeta in Hrun.
  destruct (requests_post ANKI_CONNECT_URL (find_payload word deck model) w)
    as [reply w1].
  rewrite Hrun.
  destruct (exists_answer reply) as [b|e]; cbn; repeat split; lia.
Qed.

(** X5. A reply without the key [result] counts as an empty list: the answer
    is [False] and nothing is logged. *)
Theorem note_exists_missing_result word deck model w status body d w1 :
  requests_post ANKI_CONNECT_URL (find_payload word deck model) w
  = (Response status body, w1) ->
  http_ok status = true ->
  json_loads body = Some (JObject d) ->
  Dict.get d "result" = None ->
  note_exists word deck model w
  = (Ok false, w1, [EPost ANKI_CONNECT_URL (find_payload word deck model)]).
Proof.
  intros Hpost Hst Hbody Hres.
  pose proof (note_exists_run word deck model w) as Hrun. cbv zeta in Hrun.
  rewrite Hpost in Hrun. rewrite Hrun.
  unfold exists_answer. rewrite Hst, Hbody. cbn. now rewrite Hres.
Qed.

(** X6. The existence check does not read the key [error]: a reply whose
    [result] is a list that is not empty gives [True] whatever the reply
    says under [error]. *)
Theorem note_exists_ignores_error_field word deck model w status body d id ids w1 :
  requests_post ANKI_CONNECT_URL (find_payload word deck model) w
  = (Response status body, w1) ->
  http_ok status = true ->
  json_loads body = Some (JObject d) ->
  Dict.get d "result" = Some (JArray (id :: ids)) ->
  note_exists word deck model w
  = (Ok true, w1, [EPost ANKI_CONNECT_URL (find_payload word deck model)]).
Proof.
  intros Hpost Hst Hbody Hres.
  pose proof (note_exists_run word deck model w) as Hrun. cbv zeta in Hrun.
  rewrite Hpost in Hrun. rewrite Hrun.
  unfold exists_answer. rewrite Hst, Hbody. cbn. now rewrite Hres.
Qed.

(** The insertion is one request; its outcome is decided by the reply. *)
Lemma add_anki_note_run (fields : dict string) (deck model : string) (w : World) :
  let payload := add_payload fields deck model in
  let (reply, w1) := requests_post ANKI_CONNECT_URL payload w in
  add_anki_note fields deck model w
  = (match reply with
     | PostRaises e => Raise e
     | Response status body =>
         if http_ok status then
           match json_loads body with
           | None => Raise (JSONDecodeError body)
           | Some ans =>
               match Py.get ans "error" JNull with
               | Raise e => Raise e
               | Ok err =>
                   if is_null err then Py.get ans "result" JNull
                   else Raise (AnkiConnectError err)
               end
           end
         else Raise (HTTPError status)
     end, w1, [EPost ANKI_CONNECT_URL payload]).
Proof.
  cbv zeta.
  destruct (requests_post ANKI_CONNECT_URL (add_payload fields deck model) w)
    as [reply w1] eqn:E.
  unfold add_anki_note, bind, post_checked, resp_json, lift, ret, raise, http_ok.
  rewrite E.
  destruct reply as [e|status body]; [reflexivity|].
  destruct ((400 <=? status) && (status <? 600)); [reflexivity|].
  cbn [negb].
  destruct (json_loads body) as [ans|]; [|reflexivity].
  destruct (Py.get ans "error" JNull) as [err|e]; [|reflexivity].
  destruct (is_null err); [|reflexivity].
  destruct (Py.get ans "result" JNull); reflexivity.
Qed.

(** X7. When the reply is an object whose [error] is null or absent, the
    insertion returns what the reply has under [result], and [None] when it
    has nothing there. *)
Theorem add_anki_note_returns_result fields deck model w status body d w1 :
  requests_post ANKI_CONNECT_URL (add_payload fields deck model) w
  = (Response status body, w1) ->
  http_ok status = true ->
  json_loads body = Some (JObject d) ->
  Dict.get d "error" = None \/ Dict.get d "error" = Some JNull ->
  add_anki_note fields deck model w
  = (Ok (match Dict.get d "result" with Some r => r | None => JNull end), w1,
     [EPost ANKI_CONNECT_URL (add_payload fields deck model)]).
Proof.
  intros Hpost Hst Hbody Herr.
  pose proof (add_anki_note_run fields deck model w) as Hrun. cbv zeta in Hrun.
  rewrite Hpost in Hrun. rewrite Hrun, Hst, Hbody. cbn.
  destruct Herr as [-> | ->]; reflexivity.
Qed.

(** X8. The insertion raises on every failure, after its one request: the
    exception of the transport, of the status or of the decoding, and, when
    the reply carries an error that is not null, the error of the service,
    even if the reply also carries a result. *)
Theorem add_anki_note_raises fields deck model w :
  let reply := fst (requests_post ANKI_CONNECT_URL
                                  (add_payload fields deck model) w) in
  let w1 := snd (requests_post ANKI_CONNECT_URL
                               (add_payload fields deck model) w) in
  (transport_error json_loads reply ->
   exists e, add_anki_note fields deck model w
             = (Raise e, w1, [EPost ANKI_CONNECT_URL (add_payload fields deck model)]))
  /\
  (forall status body d err,
      reply = Response status body ->
      http_ok status = true ->
      json_loads body = Some (JObject d) ->
      Dict.get d "error" = Some err -> err <> JNull ->
      add_anki_note fields deck model w
      = (Raise (AnkiConnectError err), w1,
         [EPost ANKI_CONNECT_URL (add_payload fields deck model)])).
Proof.
  pose proof (add_anki_note_run fields deck model w) as Hrun. cbv zeta in Hrun.
  destruct (requests_post ANKI_CONNECT_URL (add_payload fields deck model) w)
    as [reply w1].
  cbn [fst snd]. rewrite Hrun. split.
  - destruct reply as [e|status body]; cbn.
    + intros _. now exists e.
    + intros [Hst|Hbody].
      * rewrite Hst. eauto.
      * rewrite Hbody. destruct (http_ok status); eauto.
  - intros status body d err -> Hst Hbody Herr Hne.
    rewrite Hst, Hbody. cbn. rewrite Herr.
    destruct err; try reflexivity. contradiction.
Qed.

End NoteStoreFacts.

(** ** The generation client *)

Section GenerationFacts.

Variable World : Type.
Variable generate_content : string -> string -> World -> backend_reply * World.
Variable json_loads : string -> option json.
Variable json_dumps : json -> string.

Local Abbreviation attempt_once :=
  (attempt_once World generate_content json_loads json_dumps).
Local Abbreviation query_loop :=
  (query_loop World generate_content json_loads json_dumps).
Local Abbreviation query_gemini_for_word :=
  (query_gemini_for_word World generate_content json_loads json_dumps).
Local Abbreviation attempts_fail :=
  (attempts_fail World generate_content json_loads json_dumps).
Local Abbreviation normalize := (normalize json_dumps).
Local Abbreviation field_text := (field_text json_dumps).
Local Abbreviation extract := (extract json_loads).

(** One turn of the [while] loop. *)
Lemma query_loop_turn model prompt retries backoff attempt last_exc :
  query_loop model prompt retries backoff attempt last_exc
  = if attempt <=? retries then
      try_except World
        (attempt_once model prompt)
        (fun e =>
           bind World
             (logging World WARNING
                (LRetry (attempt + 1) (retries + 1) e
                        (backoff * inject_Z (attempt + 1))%Q))
             (fun _ =>
                bind World (sleep World (backoff * inject_Z (attempt + 1))%Q)
                  (fun _ =>
                     query_loop model prompt retries backoff (attempt + 1) (Some e))))
    else raise World (GeminiFailed (retries + 1) last_exc).
Proof.
  rewrite query_loop_equation_1.
  destruct (Z_le_gt_dec attempt retries) as [Hle|Hgt]; cbn.
  - replace (attempt <=? retries) with true by (symmetry; apply Z.leb_le; lia).
    reflexivity.
  - replace (attempt <=? retries) with false by (symmetry; apply Z.leb_gt; lia).
    reflexivity.
Qed.

(** An attempt is one call of the backend; its outcome is decided by the
    reply. *)
Lemma attempt_once_run model prompt w :
  attempt_once model prompt w
  = let (reply, w1) := generate_content model prompt w in
    (match reply with
     | GenRaises e => Raise e
     | GenText raw =>
         match extract raw with
         | Ok parsed => normalize parsed
         | Raise e => Raise e
         end
     end, w1, [EGenerate model prompt]).
Proof.
  unfold attempt_once, bind, call_generate, lift.
  destruct (generate_content model prompt w) as [[e|raw] w1]; [reflexivity|].
  destruct (extract raw) as [parsed|e]; [|reflexivity].
  destruct (normalize parsed); reflexivity.
Qed.

Lemma attempt_once_trace model prompt w r w1 t :
  attempt_once model prompt w = (r, w1, t) -> t = [EGenerate model prompt].
Proof.
  rewrite attempt_once_run.
  destruct (generate_content model prompt w) as [reply w']. congruence.
Qed.

Lemma wait_nonneg (backoff : Q) (attempt : Z) :
  (0 <= backoff)%Q -> 0 <= attempt -> (0 <= backoff * inject_Z attempt)%Q.
Proof.
  intros Hb Ha. apply Qmult_le_0_compat; [exact Hb|].
  unfold Qle. simpl. lia.
Qed.

Lemma sleep_nonneg (d : Q) (w : World) :
  (0 <= d)%Q -> sleep World d w = (Ok tt, w, [ESleep d]).
Proof.
  intros Hd. unfold sleep.
  replace (Qle_bool 0 d) with true by (symmetry; now apply Qle_bool_iff).
  reflexivity.
Qed.

Lemma last_cons {A} (a : A) (l : list A) (d : A) : last (a :: l) d = last l a.
Proof.
  revert a d. induction l as [|x l IH]; intros a d; [reflexivity|].
  change (last (a :: x :: l) d) with (last (x :: l) d).
  now rewrite (IH x d), (IH x a).
Qed.

Lemma attempts_fail_length model prompt n : forall w es w',
  attempts_fail model prompt n w = Some (es, w') -> List.length es = n.
Proof.
  induction n as [|n IH]; intros w es w' H; simpl in H.
  - now injection H as <- _.
  - destruct (attempt_once model prompt w) as [[[r|e] w1] t]; [discriminate|].
    destruct (attempts_fail model prompt n w1) as [[es' w2]|] eqn:E; [|discriminate].
    simpl in H. injection H as <- _. simpl. f_equal. eapply IH; eauto.
Qed.

(** When all the attempts that remain fail, the loop raises
    [GeminiFailed] with the last exception, after the effects of each failed
    attempt: its call, its warning and its sleep. *)
Lemma query_loop_all_fail model prompt retries backoff :
  (0 <= backoff)%Q ->
  forall n attempt last_exc w es w',
    0 <= attempt ->
    n = Z.to_nat (retries + 1 - attempt) ->
    attempts_fail model prompt n w = Some (es, w') ->
    query_loop model prompt retries backoff attempt last_exc w
    = (Raise (GeminiFailed (retries + 1) (last (map Some es) last_exc)), w',
       retry_trace model prompt (retries + 1) backoff attempt es).
Proof.
  intros Hb.
  induction n as [|n IH]; intros attempt last_exc w es w' Ha Hn Hfail;
    rewrite query_loop_turn.
  - replace (attempt <=? retries) with false by (symmetry; apply Z.leb_gt; lia).
    simpl in Hfail. injection Hfail as <- <-. reflexivity.
  - replace (attempt <=? retries) with true by (symmetry; apply Z.leb_le; lia).
    simpl in Hfail.
    destruct (attempt_once model prompt w) as [[[r|e] w1] t] eqn:Eatt; [discriminate|].
    destruct (attempts_fail model prompt n w1) as [[es' w2]|] eqn:E; [|discriminate].
    simpl in Hfail. injection Hfail as <- <-.
    pose proof (attempt_once_trace _ _ _ _ _ _ Eatt) as ->.
    unfold try_except. rewrite Eatt.
    unfold bind at 1. unfold logging, emit.
    unfold bind at 1.
    rewrite sleep_nonneg by (apply wait_nonneg; [assumption | lia]).
    rewrite (IH (attempt + 1) (Some e) w1 es' w2) by (try assumption; lia).
    cbn [map]. rewrite last_cons. reflexivity.
Qed.

Lemma generate_calls_retry_trace model prompt total backoff es : forall attempt,
  generate_calls (retry_trace model prompt total backoff attempt es)
  = repeat (EGenerate model prompt) (List.length es).
Proof.
  induction es as [|e es IH]; intros attempt; [reflexivity|].
  cbn. f_equal. apply IH.
Qed.

(** The sleeps of failed attempts [attempt + 1], [attempt + 2], ...: one
    after each, of [backoff] times its number. *)
Lemma sleeps_retry_trace model prompt total backoff es : forall attempt,
  sleeps (retry_trace model prompt total backoff attempt es)
  = map (fun i => ESleep (backoff * inject_Z (attempt + Z.of_nat i))%Q)
        (seq 1 (List.length es)).
Proof.
  induction es as [|e es IH]; intros attempt; [reflexivity|].
  cbn [retry_trace List.length seq map sleeps filter app is_sleep].
  fold (sleeps (retry_trace model prompt total backoff (attempt + 1) es)).
  rewrite IH. f_equal.
  rewrite <- (seq_shift (List.length es) 1), map_map.
  apply map_ext. intros i. do 3 f_equal. lia.
Qed.

(** C1. When each of the [retries + 1] attempts fails, whatever the kind of
    failure (the backend call raises, the reply has no usable JSON, or the
    decoded value is not usable), [query_gemini_for_word] raises the
    [RuntimeError] that carries the exception of the last attempt, and it
    has called the backend exactly [retries + 1] times (3 with the default
    [retries = 2]). *)
Theorem generate_exhausts_retries word model retries backoff w es w' :
  0 <= retries ->
  (0 <= backoff)%Q ->
  attempts_fail model (prompt_for word) (Z.to_nat (retries + 1)) w = Some (es, w') ->
  exists es0 e_last t,
    es = (es0 ++ [e_last])%list
    /\ query_gemini_for_word word model retries backoff w
       = (Raise (GeminiFailed (retries + 1) (Some e_last)), w', t)
    /\ Z.of_nat (List.length (generate_calls t)) = retries + 1.
Proof.
  intros Hr Hb Hfail.
  pose proof (attempts_fail_length _ _ _ _ _ _ Hfail) as Hlen.
  assert (Hne : es <> []) by (intros ->; simpl in Hlen; lia).
  destruct (exists_last Hne) as (es0 & e_last & ->).
  exists es0, e_last,
    (retry_trace model (prompt_for word) (retries + 1) backoff 0 (es0 ++ [e_last])%list).
  split; [reflexivity|]. split.
  - unfold query_gemini_for_word.
    rewrite (query_loop_all_fail model (prompt_for word) retries backoff Hb
               (Z.to_nat (retries + 1)) 0 None w (es0 ++ [e_last])%list w');
      [ | lia | f_equal; lia | exact Hfail].
    rewrite map_app. cbn [map]. now rewrite last_last.
  - rewrite generate_calls_retry_trace, repeat_length, Hlen. lia.
Qed.

(** In a run whose attempts all fail there are as many sleeps as attempts:
    the [n]-th lasts [backoff * n], and one follows the last attempt. *)
Lemma query_all_fail_sleeps word model retries backoff w es w' :
  0 <= retries ->
  (0 <= backoff)%Q ->
  attempts_fail model (prompt_for word) (Z.to_nat (retries + 1)) w = Some (es, w') ->
  sleeps (effects (query_gemini_for_word word model retries backoff w))
  = map (fun i => ESleep (backoff * inject_Z (0 + Z.of_nat i))%Q)
        (seq 1 (Z.to_nat (retries + 1))).
Proof.
  intros Hr Hb Hfail.
  unfold query_gemini_for_word.
  rewrite (query_loop_all_fail model (prompt_for word) retries backoff Hb
             (Z.to_nat (retries + 1)) 0 None w es w');
    [ | lia | f_equal; lia | exact Hfail].
  unfold effects. cbn [snd].
  now rewrite sleeps_retry_trace, (attempts_fail_length _ _ _ _ _ _ Hfail).
Qed.

(** The waits do not decrease from one attempt to the next. *)
Lemma wait_monotone (backoff : Q) (i j : Z) :
  (0 <= backoff)%Q -> i <= j ->
  (backoff * inject_Z i <= backoff * inject_Z j)%Q.
Proof.
  intros Hb Hij.
  rewrite (Qmult_comm backoff (inject_Z i)), (Qmult_comm backoff (inject_Z j)).
  apply Qmult_le_compat_r; [|exact Hb].
  unfold Qle. simpl. lia.
Qed.

(** *** The record of a successful attempt *)

(** On an object, the normalisation loop cannot fail and fills the five
    keys in order. *)
Lemma normalize_object (members : dict json) :
  normalize (JObject members)
  = Ok (map (fun k => (k, field_text
                            (match Dict.get members k with
                             | Some v => v
                             | None => JString EmptyString
                             end)))
            RECORD_KEYS).
Proof. reflexivity. Qed.

Lemma normalize_ok (parsed : json) (r : dict string) :
  normalize parsed = Ok r -> exists members, parsed = JObject members.
Proof.
  destruct parsed; try discriminate. intros _. eauto.
Qed.

(** A record that the loop returns is the record of one attempt. *)
Lemma query_loop_ok model prompt retries backoff r w' :
  forall n attempt last_exc w t,
    n = Z.to_nat (retries + 1 - attempt) ->
    query_loop model prompt retries backoff attempt last_exc w = (Ok r, w', t) ->
    exists w0 t0, attempt_once model prompt w0 = (Ok r, w', t0).
Proof.
  induction n as [|n IH]; intros attempt last_exc w t Hn; rewrite query_loop_turn.
  - replace (attempt <=? retries) with false by (symmetry; apply Z.leb_gt; lia).
    discriminate.
  - replace (attempt <=? retries) with true by (symmetry; apply Z.leb_le; lia).
    unfold try_except.
    destruct (attempt_once model prompt w) as [[[a|e] w1] t1] eqn:Eatt.
    + intros H. injection H as -> -> _. eauto.
    + unfold bind at 1. unfold logging, emit. unfold bind at 1.
      destruct (sleep World (backoff * inject_Z (attempt + 1))%Q w1)
        as [[[u|e'] w2] t2]; [|discriminate].
      destruct (query_loop model prompt retries backoff (attempt + 1) (Some e) w2)
        as [[r3 w3] t3] eqn:Erec.
      intros H. injection H as -> -> _.
      apply (IH (attempt + 1) (Some e) w2 t3); [lia | exact Erec].
Qed.

Lemma attempt_once_ok model prompt w r w1 t :
  attempt_once model prompt w = (Ok r, w1, t) ->
  exists raw members,
    generate_content model prompt w = (GenText (Some raw), w1)
    /\ find_json_in_text json_loads raw = Ok (JObject members)
    /\ normalize (JObject members) = Ok r.
Proof.
  rewrite attempt_once_run.
  destruct (generate_content model prompt w) as [[e|[raw|]] w2]; cbn;
    try (intros H; discriminate H).
  destruct (find_json_in_text json_loads raw) as [parsed|e] eqn:E;
    [|intros H; discriminate H].
  intros H. injection H as Hn -> _.
  destruct (normalize_ok _ _ Hn) as (members & ->).
  exists raw, members. auto.
Qed.

(** C5. A record returned by [query_gemini_for_word] was built from the
    object extracted from a reply of the backend, and it has exactly the
    five keys, in order: a key that the object lacks maps to the empty
    text, a text value to the value trimmed, and any other value to its
    JSON text.  The normalisation of an object cannot fail. *)
Theorem lexical_record_shape :
  (forall members, exists r, normalize (JObject members) = Ok r)
  /\
  (forall word model retries backoff w r w' t,
      query_gemini_for_word word model retries backoff w = (Ok r, w', t) ->
      exists w0 raw members,
        generate_content model (prompt_for word) w0 = (GenText (Some raw), w')
        /\ find_json_in_text json_loads raw = Ok (JObject members)
        /\ Dict.keys r = RECORD_KEYS
        /\ forall k, In k RECORD_KEYS ->
             match Dict.get members k with
             | None => Dict.get r k = Some EmptyString
             | Some (JString s) => Dict.get r k = Some (Str.strip s)
             | Some v => Dict.get r k = Some (json_dumps v)
             end).
Proof.
  split.
  - intros members. rewrite normalize_object. eauto.
  - intros word model retries backoff w r w' t Hrun.
    unfold query_gemini_for_word in Hrun.
    destruct (query_loop_ok _ _ _ _ _ _ _ 0 None w t eq_refl Hrun) as (w0 & t0 & Hatt).
    destruct (attempt_once_ok _ _ _ _ _ _ Hatt) as (raw & members & Hgen & Hext & Hnorm).
    exists w0, raw, members.
    split; [exact Hgen|]. split; [exact Hext|].
    rewrite normalize_object in Hnorm. injection Hnorm as <-.
    split; [reflexivity|].
    intros k Hk. cbn in Hk.
    destruct Hk as [<-|[<-|[<-|[<-|[<-|[]]]]]];
      (match goal with
       | |- context [Dict.get members ?key] =>
           destruct (Dict.get members key) as [[| | | | | |]|]; reflexivity
       end).
Qed.

(** *** More on the generation client *)

(** After [k] failed attempts and one that succeeds, the loop returns the
    record of that attempt. *)
Lemma query_loop_success model prompt retries backoff r w2 t :
  (0 <= backoff)%Q ->
  forall k attempt last_exc w es w1,
    0 <= attempt ->
    attempt + Z.of_nat k <= retries ->
    attempts_fail model prompt k w = Some (es, w1) ->
    attempt_once model prompt w1 = (Ok r, w2, t) ->
    query_loop model prompt retries backoff attempt last_exc w
    = (Ok r, w2,
       (retry_trace model prompt (retries + 1) backoff attempt es
          ++ [EGenerate model prompt])%list).
Proof.
  intros Hb.
  induction k as [|k IH]; intros attempt last_exc w es w1 Ha Hk Hfail Hok;
    rewrite query_loop_turn;
    (replace (attempt <=? retries) with true by (symmetry; apply Z.leb_le; lia));
    simpl in Hfail.
  - injection Hfail as <- <-.
    pose proof (attempt_once_trace _ _ _ _ _ _ Hok) as ->.
    unfold try_except. now rewrite Hok.
  - destruct (attempt_once model prompt w) as [[[a|e] w'] t'] eqn:Eatt; [discriminate|].
    destruct (attempts_fail model prompt k w') as [[es' w'']|] eqn:E; [|discriminate].
    simpl in Hfail. injection Hfail as <- <-.
    pose proof (attempt_once_trace _ _ _ _ _ _ Eatt) as ->.
    unfold try_except. rewrite Eatt.
    unfold bind at 1. unfold logging, emit. unfold bind at 1.
    rewrite sleep_nonneg by (apply wait_nonneg; [assumption | lia]).
    rewrite (IH (attempt + 1) (Some e) w' es' w'') by (try assumption; lia).
    reflexivity.
Qed.

(** X9. When the first [k] attempts fail and the next one succeeds, with
    [k <= retries], the client returns the record of that attempt; it has
    called the backend [k + 1] times and slept after each failure only, for
    [backoff] times the number of the failed attempt.  In particular a first
    attempt that succeeds is one call, without any sleep or warning. *)
Theorem generate_succeeds_after_failures word model retries backoff k w es w1 r w2 t :
  (0 <= backoff)%Q ->
  Z.of_nat k <= retries ->
  attempts_fail model (prompt_for word) k w = Some (es, w1) ->
  attempt_once model (prompt_for word) w1 = (Ok r, w2, t) ->
  query_gemini_for_word word model retries backoff w
  = (Ok r, w2,
     (retry_trace model (prompt_for word) (retries + 1) backoff 0 es
        ++ [EGenerate model (prompt_for word)])%list)
  /\ List.length (generate_calls
                    (effects (query_gemini_for_word word model retries backoff w)))
     = S k
  /\ sleeps (effects (query_gemini_for_word word model retries backoff w))
     = map (fun i => ESleep (backoff * inject_Z (0 + Z.of_nat i))%Q) (seq 1 k).
Proof.
  intros Hb Hk Hfail Hok.
  assert (Hrun : query_gemini_for_word word model retries backoff w
                 = (Ok r, w2,
                    (retry_trace model (prompt_for word) (retries + 1) backoff 0 es
                       ++ [EGenerate model (prompt_for word)])%list)).
  { unfold query_gemini_for_word.
    apply (query_loop_success _ _ _ _ r w2 t Hb k 0 None w es w1);
      try assumption; lia. }
  pose proof (attempts_fail_length _ _ _ _ _ _ Hfail) as Hlen.
  split; [exact Hrun|]. rewrite Hrun. unfold effects. cbn [snd]. split.
  - unfold generate_calls. rewrite filter_app.
    fold (generate_calls (retry_trace model (prompt_for word) (retries + 1) backoff 0 es)).
    rewrite generate_calls_retry_trace, length_app, repeat_length, Hlen.
    cbn. lia.
  - unfold sleeps. rewrite filter_app.
    fold (sleeps (retry_trace model (prompt_for word) (retries + 1) backoff 0 es)).
    rewrite sleeps_retry_trace, Hlen. cbn. now rewrite app_nil_r.
Qed.

Lemma query_loop_calls_bound model prompt retries backoff :
  forall n attempt last_exc w,
    n = Z.to_nat (retries + 1 - attempt) ->
    (List.length (generate_calls
                    (effects (query_loop model prompt retries backoff
                                         attempt last_exc w))) <= n)%nat.
Proof.
  induction n as [|n IH]; intros attempt last_exc w Hn; rewrite query_loop_turn.
  - replace (attempt <=? retries) with false by (symmetry; apply Z.leb_gt; lia).
    cbn. lia.
  - replace (attempt <=? retries) with true by (symmetry; apply Z.leb_le; lia).
    unfold try_except.
    destruct (attempt_once model prompt w) as [[[a|e] w1] t1] eqn:Eatt;
      apply attempt_once_trace in Eatt; subst t1; [cbn; lia|].
    unfold bind at 1. unfold logging, emit. unfold bind at 1.
    unfold sleep.
    destruct (Qle_bool 0 (backoff * inject_Z (attempt + 1))); [|cbn; lia].
    unfold emit.
    specialize (IH (attempt + 1) (Some e) w1).
    destruct (query_loop model prompt retries backoff (attempt + 1) (Some e) w1)
      as [[r3 w3] t3].
    cbn. cbn in IH. apply le_n_S. apply IH. lia.
Qed.

(** X10. Whatever the backend does and whatever the outcome, the client
    calls it at most [retries + 1] times for one word (3 with the
    defaults). *)
Theorem generate_calls_bounded word model retries backoff w :
  (List.length (generate_calls
                  (effects (query_gemini_for_word word model retries backoff w)))
   <= Z.to_nat (retries + 1))%nat.
Proof.
  unfold query_gemini_for_word.
  apply query_loop_calls_bound. f_equal. lia.
Qed.

(** X11. With a negative [retries] the loop body never runs: the client
    raises at once, without any call, a [RuntimeError] whose last error is
    [None]. *)
Theorem generate_negative_retries word model retries backoff w :
  retries < 0 ->
  query_gemini_for_word word model retries backoff w
  = (Raise (GeminiFailed (retries + 1) None), w, []).
Proof.
  intros Hr. unfold query_gemini_for_word. rewrite query_loop_turn.
  replace (0 <=? retries) with false by (symmetry; apply Z.leb_gt; lia).
  reflexivity.
Qed.

(** X12. With a negative [backoff] the first failed attempt ends the
    client: [time.sleep] refuses the negative wait inside the handler, and
    its [ValueError] leaves the function in place of the [RuntimeError],
    after one call and without a retry. *)
Theorem generate_negative_backoff word model retries backoff w e w1 t :
  (backoff < 0)%Q ->
  0 <= retries ->
  attempt_once model (prompt_for word) w = (Raise e, w1, t) ->
  query_gemini_for_word word model retries backoff w
  = (Raise (ValueError "sleep length must be non-negative"), w1,
     [EGenerate model (prompt_for word);
      ELog WARNING (LRetry 1 (retries + 1) e (backoff * inject_Z 1)%Q)]).
Proof.
  intros Hb Hr Hatt.
  unfold query_gemini_for_word. rewrite query_loop_turn.
  replace (0 <=? retries) with true by (symmetry; apply Z.leb_le; lia).
  pose proof (attempt_once_trace _ _ _ _ _ _ Hatt) as ->.
  unfold try_except. rewrite Hatt.
  unfold bind at 1. unfold logging, emit. unfold bind at 1.
  unfold sleep.
  destruct (Qle_bool 0 (backoff * inject_Z (0 + 1))) eqn:E; [|reflexivity].
  apply Qle_bool_iff in E. exfalso.
  change (inject_Z (0 + 1)) with 1%Q in E. rewrite Qmult_1_r in E.
  exact (Qlt_not_le _ _ Hb E).
Qed.

(** X13. A reply from which the extractor gets a value that is not an
    object (a number, a list, a text, ...) makes the attempt fail with an
    [AttributeError], after its call: the value has no [get]. *)
Theorem attempt_fails_on_non_mapping model prompt w raw w1 v :
  generate_content model prompt w = (GenText (Some raw), w1) ->
  find_json_in_text json_loads raw = Ok v ->
  is_mapping v = false ->
  attempt_once model prompt w
  = (Raise (AttributeError "object has no attribute 'get'"), w1,
     [EGenerate model prompt]).
Proof.
  intros Hgen Hext Hv.
  rewrite attempt_once_run, Hgen. cbn. rewrite Hext.
  destruct v; try reflexivity. discriminate.
Qed.

End GenerationFacts.

(** ** The pipeline driver *)

Section PipelineFacts.

Variable World : Type.
Variable requests_post : string -> json -> World -> http_reply * World.
Variable generate_content : string -> string -> World -> backend_reply * World.
Variable json_loads : string -> option json.
Variable json_dumps : json -> string.

Local Abbreviation note_exists := (note_exists World requests_post json_loads).
Local Abbreviation add_anki_note := (add_anki_note World requests_post json_loads).
Local Abbreviation attempt_once :=
  (attempt_once World generate_content json_loads json_dumps).
Local Abbreviation query_loop :=
  (query_loop World generate_content json_loads json_dumps).
Local Abbreviation query_gemini_for_word :=
  (query_gemini_for_word World generate_content json_loads json_dumps).
Local Abbreviation generate_and_add :=
  (generate_and_add World requests_post generate_content json_loads json_dumps).
Local Abbreviation process_word :=
  (process_word World requests_post generate_content json_loads json_dumps).
Local Abbreviation process_row :=
  (process_row World requests_post generate_content json_loads json_dumps).
Local Abbreviation process_rows :=
  (process_rows World requests_post generate_content json_loads json_dumps).
Local Abbreviation process_csv_file :=
  (process_csv_file World requests_post generate_content json_loads json_dumps).

(** The existence check never raises; its only request is the find
    query. *)
Lemma note_exists_effects word deck model w :
  exists b w1 t1,
    note_exists word deck model w = (Ok b, w1, t1)
    /\ (b = true -> t1 = [EPost ANKI_CONNECT_URL (find_payload word deck model)])
    /\ filter is_add_note t1 = []
    /\ read_calls t1 = [EPost ANKI_CONNECT_URL (find_payload word deck model)]
    /\ sleeps t1 = [].
Proof.
  pose proof (note_exists_run World requests_post json_loads word deck model w) as H.
  cbv zeta in H.
  destruct (requests_post ANKI_CONNECT_URL (find_payload word deck model) w)
    as [reply w1].
  destruct (exists_answer json_loads reply) as [b|e].
  - exists b, w1, [EPost ANKI_CONNECT_URL (find_payload word deck model)].
    repeat split; try reflexivity. exact H.
  - exists false, w1, [EPost ANKI_CONNECT_URL (find_payload word deck model);
                       ELog ERROR (LExistsError word e)].
    repeat split; try reflexivity; [exact H | discriminate].
Qed.

(** The insertion is one request. *)
Lemma add_anki_note_effects fields deck model w :
  effects (add_anki_note fields deck model w)
  = [EPost ANKI_CONNECT_URL (add_payload fields deck model)].
Proof.
  unfold add_anki_note, effects, bind, post_checked, resp_json, lift,
    ret, raise.
  destruct (requests_post ANKI_CONNECT_URL (add_payload fields deck model) w)
    as [[e|status body] w1]; [reflexivity|].
  destruct ((400 <=? status) && (status <? 600)); [reflexivity|].
  destruct (json_loads body) as [ans|]; [|reflexivity].
  destruct (Py.get ans "error" JNull) as [err|e]; [|reflexivity].
  destruct (is_null err); [|reflexivity].
  destruct (Py.get ans "result" JNull); reflexivity.
Qed.

(** The generation client posts nothing to the note store. *)
Lemma query_loop_no_post model prompt retries backoff :
  forall n attempt last_exc w,
    n = Z.to_nat (retries + 1 - attempt) ->
    filter is_post
           (effects (query_loop model prompt retries backoff attempt last_exc w)) = [].
Proof.
  induction n as [|n IH]; intros attempt last_exc w Hn; rewrite query_loop_turn.
  - replace (attempt <=? retries) with false by (symmetry; apply Z.leb_gt; lia).
    reflexivity.
  - replace (attempt <=? retries) with true by (symmetry; apply Z.leb_le; lia).
    unfold try_except.
    destruct (attempt_once model prompt w) as [[[a|e] w1] t1] eqn:Eatt;
      apply attempt_once_trace in Eatt; subst t1; [reflexivity|].
    unfold bind at 1. unfold logging, emit. unfold bind at 1.
    unfold sleep.
    destruct (Qle_bool 0 (backoff * inject_Z (attempt + 1))); [|reflexivity].
    unfold emit.
    specialize (IH (attempt + 1) (Some e) w1).
    destruct (query_loop model prompt retries backoff (attempt + 1) (Some e) w1)
      as [[r3 w3] t3].
    cbn. cbn in IH. apply IH. lia.
Qed.

Lemma query_no_post word model retries backoff w :
  filter is_post (effects (query_gemini_for_word word model retries backoff w)) = [].
Proof. now apply (query_loop_no_post _ _ _ _ _ 0 None w eq_refl). Qed.

Lemma filter_no_post (p : event -> bool) (t : list event) :
  (forall e, p e = true -> is_post e = true) ->
  filter is_post t = [] -> filter p t = [].
Proof.
  intros Hp. induction t as [|e t IH]; [reflexivity|].
  simpl. destruct (is_post e) eqn:E; [discriminate|].
  intros H. destruct (p e) eqn:Ep; [|now apply IH].
  apply Hp in Ep. congruence.
Qed.

Lemma is_action_post name e : is_action name e = true -> is_post e = true.
Proof. destruct e; simpl; congruence. Qed.

Lemma read_calls_app (a b : list event) :
  read_calls (a ++ b) = (read_calls a ++ read_calls b)%list.
Proof. apply filter_app. Qed.

Lemma read_calls_log lvl msg (t : list event) :
  read_calls (ELog lvl msg :: t) = read_calls t.
Proof. reflexivity. Qed.

(** *** One word *)

Lemma process_word_found word n deck model gm dry w w1 t1 :
  note_exists word deck model w = (Ok true, w1, t1) ->
  process_word word n deck model gm dry w
  = (Ok tt, w1, (t1 ++ [ELog INFO (LSkipping word deck)])%list).
Proof.
  intros H. unfold process_word, bind. now rewrite H.
Qed.

(** A word that is not in the deck: whatever the [try] block does, the
    iteration ends with the pause of one second. *)
Lemma process_word_not_found word n deck model gm dry w w1 t1 :
  note_exists word deck model w = (Ok false, w1, t1) ->
  process_word word n deck model gm dry w
  = let '(r, w2, t2) := generate_and_add word deck model gm dry w1 in
    (Ok tt, w2,
     (t1 ++ ELog INFO (LProcessing n word) :: t2
         ++ match r with
            | Ok _ => []
            | Raise e => [ELog ERROR (LFailed word n e)]
            end
         ++ [ESleep 1])%list).
Proof.
  intros H. unfold process_word, bind, try_except. rewrite H.
  unfold logging, emit.
  destruct (generate_and_add word deck model gm dry w1) as [[[u|e] w2] t2];
    cbn; [destruct u|]; repeat (f_equal; try (now rewrite <- ?app_assoc)).
Qed.

(** The [try] block in preview mode: the generation, then two log
    entries. *)
Lemma generate_and_add_preview word deck model gm w :
  generate_and_add word deck model gm true w
  = match query_gemini_for_word word gm 2 1 w with
    | (Ok gemini, w1, t1) =>
        (Ok tt, w1,
         (t1 ++ [ELog INFO (LGenerated word
                               (map (fun kv => (fst kv, Py.shorten (snd kv)))
                                    (note_fields word gemini)));
                 ELog INFO LDryRun])%list)
    | (Raise e, w1, t1) => (Raise e, w1, t1)
    end.
Proof.
  unfold generate_and_add, bind, logging, emit.
  destruct (query_gemini_for_word word gm 2 1 w) as [[[g|e] w1] t1]; reflexivity.
Qed.

(** The [try] block in normal mode: the generation, a log entry, and the
    insertion request. *)
Lemma generate_and_add_normal word deck model gm w :
  exists r w2 logs,
    generate_and_add word deck model gm false w
    = match query_gemini_for_word word gm 2 1 w with
      | (Ok gemini, w1, t1) =>
          (r, w2,
           (t1 ++ [ELog INFO (LGenerated word
                                 (map (fun kv => (fst kv, Py.shorten (snd kv)))
                                      (note_fields word gemini)));
                   EPost ANKI_CONNECT_URL
                         (add_payload (note_fields word gemini) deck model)]
               ++ logs)%list)
      | (Raise e, w1, t1) => (Raise e, w1, t1)
      end
    /\ read_calls logs = [].
Proof.
  unfold generate_and_add, bind, logging, emit.
  destruct (query_gemini_for_word word gm 2 1 w) as [[[g|e] w1] t1].
  - pose proof (add_anki_note_effects (note_fields word g) deck model w1) as Ha.
    unfold effects in Ha.
    destruct (add_anki_note (note_fields word g) deck model w1) as [[[res|e] w2] t2];
      cbn in Ha; subst t2.
    + exists (Ok tt), w2, [ELog INFO (LAdded res)]. split; reflexivity.
    + exists (Raise e), w2, []. split; reflexivity.
  - exists (Raise e), w1, []. split; reflexivity.
Qed.

(** One iteration never raises. *)
Lemma process_row_ok row n deck model gm dry w :
  exists w1 t1, process_row row n deck model gm dry w = (Ok tt, w1, t1).
Proof.
  unfold process_row.
  destruct row as [|cell cells]; [unfold ret; eauto|].
  destruct (Str.is_empty (Str.strip cell)); [unfold ret; eauto|].
  destruct (note_exists_effects (Str.strip cell) deck model w)
    as (b & w1 & t1 & Hne & _).
  destruct b.
  - rewrite (process_word_found _ _ _ _ _ _ _ _ _ Hne). eauto.
  - rewrite (process_word_not_found _ _ _ _ _ _ _ _ _ Hne).
    destruct (generate_and_add (Str.strip cell) deck model gm dry w1)
      as [[r w2] t2]. eauto.
Qed.

(** The loop goes on with the next row after the effects of this one. *)
Lemma process_rows_cons row rows n deck model gm dry w w1 t1 :
  process_row row (n + 1) deck model gm dry w = (Ok tt, w1, t1) ->
  process_rows (row :: rows) n deck model gm dry w
  = let '(r, w2, t2) := process_rows rows (n + 1) deck model gm dry w1 in
    (r, w2, (t1 ++ t2)%list).
Proof.
  intros H. cbn [process_rows]. unfold bind at 1. now rewrite H.
Qed.

(** C6. A word for which [note_exists] answers [True] is skipped: the
    effects of its iteration are the find query and the log entry of the
    skip, with no generation call and no insertion call, and the loop goes
    on with the next row. *)
Theorem skip_existing_word cell cells rows n deck model gm dry w w1 t1 :
  Str.is_empty (Str.strip cell) = false ->
  note_exists (Str.strip cell) deck model w = (Ok true, w1, t1) ->
  let word := Str.strip cell in
  let word_effects := (t1 ++ [ELog INFO (LSkipping word deck)])%list in
  t1 = [EPost ANKI_CONNECT_URL (find_payload word deck model)]
  /\ generate_calls word_effects = []
  /\ filter is_add_note word_effects = []
  /\ process_rows ((cell :: cells) :: rows) n deck model gm dry w
     = let '(r, w2, t2) := process_rows rows (n + 1) deck model gm dry w1 in
       (r, w2, (word_effects ++ t2)%list).
Proof.
  intros Hword Hfound. cbv zeta.
  destruct (note_exists_effects (Str.strip cell) deck model w)
    as (b & w1' & t1' & Hne & Htrue & _).
  rewrite Hfound in Hne. injection Hne as <- <- <-.
  rewrite (Htrue eq_refl).
  repeat split.
  apply process_rows_cons.
  unfold process_row. rewrite Hword.
  rewrite (process_word_found _ _ _ _ _ _ _ _ _ Hfound).
  now rewrite (Htrue eq_refl).
Qed.

(** C2, amended. After a word whose existence check answers [False], the
    iteration ends with a sleep of one second, whether the word was added,
    failed or only previewed, and the loop then goes on with the next row.
    After a word whose existence check answers [True] (a skipped word) the
    loop goes on with the next row without any sleep. *)
Theorem sleep_after_word_not_skipped
        cell cells rows n deck model gm dry w found w1 t1 :
  Str.is_empty (Str.strip cell) = false ->
  note_exists (Str.strip cell) deck model w = (Ok found, w1, t1) ->
  exists w2 t2,
    process_rows ((cell :: cells) :: rows) n deck model gm dry w
    = (let '(r, w3, t3) := process_rows rows (n + 1) deck model gm dry w2 in
       (r, w3, (t1 ++ t2 ++ t3)%list))
    /\ if found
       then w2 = w1 /\ sleeps (t1 ++ t2) = []
       else exists t2', t2 = (t2' ++ [ESleep 1])%list.
Proof.
  intros Hword Hne.
  destruct found.
  - exists w1, [ELog INFO (LSkipping (Str.strip cell) deck)].
    destruct (note_exists_effects (Str.strip cell) deck model w)
      as (b & w1' & t1' & Hne' & _ & _ & _ & Hsl).
    rewrite Hne in Hne'. injection Hne' as <- <- <-.
    split.
    + rewrite (process_rows_cons _ rows n _ _ _ _ _ w1
                 (t1 ++ [ELog INFO (LSkipping (Str.strip cell) deck)])%list).
      * destruct (process_rows rows (n + 1) deck model gm dry w1) as [[r w3] t3].
        now rewrite <- app_assoc.
      * unfold process_row. rewrite Hword.
        apply process_word_found. exact Hne.
    + split; [reflexivity|].
      unfold sleeps in *. rewrite filter_app, Hsl. reflexivity.
  - pose proof (process_word_not_found (Str.strip cell) (n + 1) deck model gm dry
                  w w1 t1 Hne) as Hpw.
    destruct (generate_and_add (Str.strip cell) deck model gm dry w1)
      as [[r w2] t2] eqn:Egen.
    set (t2' := (ELog INFO (LProcessing (n + 1) (Str.strip cell)) :: t2
                   ++ match r with
                      | Ok _ => []
                      | Raise e => [ELog ERROR (LFailed (Str.strip cell) (n + 1) e)]
                      end)%list).
    exists w2, (t2' ++ [ESleep 1])%list.
    split; [|now exists t2'].
    rewrite (process_rows_cons _ rows n _ _ _ _ _ w2 (t1 ++ t2' ++ [ESleep 1])%list).
    + destruct (process_rows rows (n + 1) deck model gm dry w2) as [[r3 w3] t3].
      now rewrite <- !app_assoc.
    + unfold process_row. rewrite Hword, Hpw.
      unfold t2'. cbn [app]. now rewrite <- !app_assoc.
Qed.

(** *** Preview mode *)

Lemma process_row_preview_no_add row n deck model gm w :
  filter is_add_note (effects (process_row row n deck model gm true w)) = [].
Proof.
  unfold process_row.
  destruct row as [|cell cells]; [reflexivity|].
  destruct (Str.is_empty (Str.strip cell)); [reflexivity|].
  destruct (note_exists_effects (Str.strip cell) deck model w)
    as (b & w1 & t1 & Hne & _ & Hadd & _).
  destruct b.
  - rewrite (process_word_found _ _ _ _ _ _ _ _ _ Hne).
    unfold effects. cbn [snd]. now rewrite filter_app, Hadd.
  - rewrite (process_word_not_found _ _ _ _ _ _ _ _ _ Hne).
    rewrite generate_and_add_preview.
    pose proof (query_no_post (Str.strip cell) gm 2 1 w1) as Hq.
    apply (filter_no_post is_add_note) in Hq; [|apply is_action_post].
    unfold effects in *.
    destruct (query_gemini_for_word (Str.strip cell) gm 2 1 w1) as [[[g|e] w2] t2];
      cbn [snd] in *;
      rewrite filter_app, Hadd; cbn [app filter is_add_note is_action];
      rewrite !filter_app, Hq; reflexivity.
Qed.

Lemma process_rows_preview_no_add rows deck model gm : forall n w,
  filter is_add_note (effects (process_rows rows n deck model gm true w)) = [].
Proof.
  induction rows as [|row rows IH]; intros n w; [reflexivity|].
  destruct (process_row_ok row (n + 1) deck model gm true w) as (w1 & t1 & Hrow).
  rewrite (process_rows_cons _ _ _ _ _ _ _ _ _ _ Hrow).
  pose proof (process_row_preview_no_add row (n + 1) deck model gm w) as H1.
  rewrite Hrow in H1.
  specialize (IH (n + 1) w1).
  destruct (process_rows rows (n + 1) deck model gm true w1) as [[r w2] t2].
  unfold effects in *. cbn [snd] in *.
  now rewrite filter_app, H1, IH.
Qed.

(** The world after the insertion is the world after its request. *)
Lemma add_anki_note_world fields deck model w :
  snd (fst (add_anki_note fields deck model w))
  = snd (requests_post ANKI_CONNECT_URL (add_payload fields deck model) w).
Proof.
  unfold add_anki_note, bind, post_checked, resp_json, lift, ret, raise.
  destruct (requests_post ANKI_CONNECT_URL (add_payload fields deck model) w)
    as [[e|status body] w1]; [reflexivity|].
  destruct ((400 <=? status) && (status <? 600)); [reflexivity|].
  destruct (json_loads body) as [ans|]; [|reflexivity].
  destruct (Py.get ans "error" JNull) as [err|e]; [|reflexivity].
  destruct (is_null err); [|reflexivity].
  destruct (Py.get ans "result" JNull); reflexivity.
Qed.

(** The world that the [try] block leaves in normal mode. *)
Lemma generate_and_add_normal_world word deck model gm w :
  snd (fst (generate_and_add word deck model gm false w))
  = match query_gemini_for_word word gm 2 1 w with
    | (Ok gemini, w1, _) =>
        snd (requests_post ANKI_CONNECT_URL
                           (add_payload (note_fields word gemini) deck model) w1)
    | (Raise _, w1, _) => w1
    end.
Proof.
  unfold generate_and_add, bind, logging, emit.
  destruct (query_gemini_for_word word gm 2 1 w) as [[[g|e] w1] t1]; [|reflexivity].
  rewrite <- add_anki_note_world.
  destruct (add_anki_note (note_fields word g) deck model w1) as [[[res|e] w2] t2];
    reflexivity.
Qed.

(** With an inert insertion, one word leaves the same world and makes the
    same read-side calls in both modes. *)
Lemma process_word_modes word n deck model gm w :
  insertion_inert World requests_post ->
  snd (fst (process_word word n deck model gm true w))
  = snd (fst (process_word word n deck model gm false w))
  /\ read_calls (effects (process_word word n deck model gm true w))
     = read_calls (effects (process_word word n deck model gm false w)).
Proof.
  intros Hinert.
  destruct (note_exists_effects word deck model w) as (b & w1 & t1 & Hne & _).
  destruct b.
  - now rewrite !(process_word_found _ _ _ _ _ _ _ _ _ Hne).
  - rewrite !(process_word_not_found _ _ _ _ _ _ _ _ _ Hne).
    pose proof (generate_and_add_normal_world word deck model gm w1) as Hw.
    destruct (generate_and_add_normal word deck model gm w1)
      as (r & w2 & logs & Hrun & Hlogs).
    rewrite Hrun in Hw |- *. rewrite generate_and_add_preview.
    destruct (query_gemini_for_word word gm 2 1 w1) as [[[g|e] w3] t3];
      [|split; reflexivity].
    cbn [fst snd] in Hw. rewrite Hinert in Hw. subst w2.
    split; [reflexivity|].
    unfold effects. cbn [snd].
    rewrite !read_calls_app, !read_calls_log, !read_calls_app, Hlogs.
    destruct r; reflexivity.
Qed.

Lemma process_rows_modes rows deck model gm :
  insertion_inert World requests_post ->
  forall n w,
    snd (fst (process_rows rows n deck model gm true w))
    = snd (fst (process_rows rows n deck model gm false w))
    /\ read_calls (effects (process_rows rows n deck model gm true w))
       = read_calls (effects (process_rows rows n deck model gm false w)).
Proof.
  intros Hinert.
  induction rows as [|row rows IH]; intros n w; [split; reflexivity|].
  destruct (process_row_ok row (n + 1) deck model gm true w) as (wa & ta & Ha).
  destruct (process_row_ok row (n + 1) deck model gm false w) as (wb & tb & Hb).
  assert (Hrow : wa = wb /\ read_calls ta = read_calls tb).
  { unfold process_row in Ha, Hb.
    destruct row as [|cell cells]; [unfold ret in *; split; congruence|].
    destruct (Str.is_empty (Str.strip cell)); [unfold ret in *; split; congruence|].
    destruct (process_word_modes (Str.strip cell) (n + 1) deck model gm w Hinert)
      as [Hw Hr].
    rewrite Ha, Hb in Hw, Hr. split; assumption. }
  destruct Hrow as [<- Hr].
  rewrite (process_rows_cons _ _ _ _ _ _ _ _ _ _ Ha),
          (process_rows_cons _ _ _ _ _ _ _ _ _ _ Hb).
  destruct (IH (n + 1) wa) as [IHw IHr].
  destruct (process_rows rows (n + 1) deck model gm true wa) as [[ra wa'] ta'].
  destruct (process_rows rows (n + 1) deck model gm false wa) as [[rb wb'] tb'].
  unfold effects in *. cbn [fst snd] in *.
  split; [exact IHw|].
  now rewrite !read_calls_app, Hr, IHr.
Qed.

(** *** More on the pipeline driver *)

Lemma process_row_word row n deck model gm dry :
  process_row row n deck model gm dry
  = match row_word row with
    | Some word => process_word word n deck model gm dry
    | None => ret World tt
    end.
Proof.
  unfold process_row, row_word.
  destruct row as [|cell cells]; [reflexivity|].
  now destruct (Str.is_empty (Str.strip cell)).
Qed.

Lemma process_rows_ok rows deck model gm dry : forall n w,
  exists w' t, process_rows rows n deck model gm dry w = (Ok tt, w', t).
Proof.
  induction rows as [|row rows IH]; intros n w.
  - exists w, []. reflexivity.
  - destruct (process_row_ok row (n + 1) deck model gm dry w) as (w1 & t1 & Hrow).
    rewrite (process_rows_cons _ _ _ _ _ _ _ _ _ _ Hrow).
    destruct (IH (n + 1) w1) as (w2 & t2 & ->).
    exists w2, (t1 ++ t2)%list. reflexivity.
Qed.

Local Abbreviation process_reader :=
  (process_reader World requests_post generate_content json_loads json_dumps).
Local Abbreviation process_csv_reader :=
  (process_csv_reader World requests_post generate_content json_loads json_dumps).

(** When the reader gives only rows, the loop is the run over them. *)
Lemma process_reader_rows rows deck model gm dry : forall n w,
  process_reader (map Ok rows) n deck model gm dry w
  = process_rows rows n deck model gm dry w.
Proof.
  induction rows as [|row rows IH]; intros n w; [reflexivity|].
  cbn [map process_reader process_rows]. unfold bind.
  destruct (process_row row (n + 1) deck model gm dry w) as [[[u|e] w1] t1];
    [|reflexivity].
  now rewrite IH.
Qed.

(** When the reader raises after some rows, those rows are processed and
    the exception leaves the loop. *)
Lemma process_reader_raises rows e rest deck model gm dry : forall n w,
  process_reader (map Ok rows ++ Raise e :: rest) n deck model gm dry w
  = let '(_, w1, t1) := process_rows rows n deck model gm dry w in
    (Raise e, w1, t1).
Proof.
  induction rows as [|row rows IH]; intros n w; [reflexivity|].
  destruct (process_row_ok row (n + 1) deck model gm dry w) as (wa & ta & Hrow).
  rewrite (process_rows_cons _ _ _ _ _ _ _ _ _ _ Hrow).
  cbn [map app process_reader]. unfold bind at 1. rewrite Hrow, IH.
  now destruct (process_rows rows (n + 1) deck model gm dry wa) as [[r w1] t1].
Qed.

(** What a reader gives: rows only, or rows and then an exception. *)
Lemma reader_items_split (items : list (result (list string))) :
  (exists rows, items = map Ok rows)
  \/ (exists rows e rest, items = (map Ok rows ++ Raise e :: rest)%list).
Proof.
  induction items as [|[row|e] items IH].
  - left. now exists [].
  - destruct IH as [(rows & ->) | (rows & e & rest & ->)].
    + left. now exists (row :: rows).
    + right. now exists (row :: rows), e, rest.
  - right. now exists [], e, items.
Qed.

(** X14. The loop of [process_csv_file] raises only when the reader does.
    When the reader gives all its rows, nothing that the note store or the
    backend does for any word makes the run raise: it goes through all the
    rows and ends normally.  When the reader raises after some rows, those
    rows are processed in full, the rest is not read, and the exception of
    the reader leaves the function. *)
Theorem pipeline_raises_only_from_reader deck model gm dry w :
  (forall rows,
      process_csv_reader (map Ok rows) deck model gm dry w
      = process_csv_file rows deck model gm dry w
      /\ exists w' t, process_csv_file rows deck model gm dry w = (Ok tt, w', t))
  /\
  (forall rows e rest,
      process_csv_reader (map Ok rows ++ Raise e :: rest) deck model gm dry w
      = let '(_, w1, t1) := process_csv_file rows deck model gm dry w in
        (Raise e, w1, t1)).
Proof.
  split.
  - intros rows. split.
    + apply process_reader_rows.
    + apply process_rows_ok.
  - intros rows e rest. apply process_reader_raises.
Qed.

(** In preview mode no turn of the loop requests an insertion. *)
Lemma process_reader_preview_no_add items deck model gm : forall n w,
  filter is_add_note (effects (process_reader items n deck model gm true w)) = [].
Proof.
  intros n w.
  destruct (reader_items_split items) as [(rows & ->) | (rows & e & rest & ->)].
  - rewrite process_reader_rows. apply process_rows_preview_no_add.
  - rewrite process_reader_raises.
    pose proof (process_rows_preview_no_add rows deck model gm n w) as H.
    now destruct (process_rows rows n deck model gm true w) as [[r w1] t1].
Qed.

(** X15. A row without a word (no cell, or a first cell that is empty or
    white space) has no effect: it only advances the row number. *)
Theorem blank_row_only_counts row rows n deck model gm dry w :
  row_word row = None ->
  process_rows (row :: rows) n deck model gm dry w
  = process_rows rows (n + 1) deck model gm dry w.
Proof.
  intros Hrow.
  rewrite (process_rows_cons row rows n deck model gm dry w w []).
  - now destruct (process_rows rows (n + 1) deck model gm dry w) as [[r w2] t2].
  - now rewrite process_row_word, Hrow.
Qed.

(** X16. Processing two lists of rows in a row is processing the first,
    then the second from the world that the first leaves, with the row
    number advanced by the length of the first. *)
Theorem process_rows_app pre rows deck model gm dry : forall n w,
  process_rows (pre ++ rows) n deck model gm dry w
  = let '(_, w1, t1) := process_rows pre n deck model gm dry w in
    let '(r, w2, t2) :=
      process_rows rows (n + Z.of_nat (List.length pre)) deck model gm dry w1 in
    (r, w2, (t1 ++ t2)%list).
Proof.
  induction pre as [|row pre IH]; intros n w.
  - cbn. replace (n + 0) with n by lia.
    now destruct (process_rows rows n deck model gm dry w) as [[r w2] t2].
  - destruct (process_row_ok row (n + 1) deck model gm dry w) as (wa & ta & Hrow).
    change ((row :: pre) ++ rows)%list with (row :: (pre ++ rows))%list.
    rewrite !(process_rows_cons _ _ _ _ _ _ _ _ _ _ Hrow), IH.
    replace (n + Z.of_nat (List.length (row :: pre)))
      with (n + 1 + Z.of_nat (List.length pre)) by (cbn [List.length]; lia).
    destruct (process_rows pre (n + 1) deck model gm dry wa) as [[r1 w1] t1].
    destruct (process_rows rows (n + 1 + Z.of_nat (List.length pre))
                           deck model gm dry w1) as [[r2 w2] t2].
    now rewrite app_assoc.
Qed.

Lemma filter_implied (p q : event -> bool) (t : list event) :
  (forall e, p e = true -> q e = true) ->
  filter q t = [] -> filter p t = [].
Proof.
  intros Hpq. induction t as [|e t IH]; [reflexivity|].
  simpl. destruct (q e) eqn:Eq; [discriminate|].
  intros H. destruct (p e) eqn:Ep; [|now apply IH].
  apply Hpq in Ep. congruence.
Qed.

Lemma note_exists_find_calls word deck model w :
  filter is_find_notes (effects (note_exists word deck model w))
  = [EPost ANKI_CONNECT_URL (find_payload word deck model)].
Proof.
  pose proof (note_exists_run World requests_post json_loads word deck model w) as H.
  cbv zeta in H.
  destruct (requests_post ANKI_CONNECT_URL (find_payload word deck model) w)
    as [reply w1].
  rewrite H. now destruct (exists_answer json_loads reply).
Qed.

(** The effects of the [try] block: those of the generation, then entries
    of the log and at most the insertion request. *)
Lemma generate_and_add_effects word deck model gm dry w :
  exists rest,
    effects (generate_and_add word deck model gm dry w)
    = (effects (query_gemini_for_word word gm 2 1 w) ++ rest)%list
    /\ filter is_find_notes rest = []
    /\ generate_calls rest = []
    /\ filter is_add_note rest
       = match query_gemini_for_word word gm 2 1 w with
         | (Ok gemini, _, _) =>
             if dry then []
             else [EPost ANKI_CONNECT_URL
                         (add_payload (note_fields word gemini) deck model)]
         | (Raise _, _, _) => []
         end.
Proof.
  unfold generate_and_add, bind, logging, emit, effects.
  destruct (query_gemini_for_word word gm 2 1 w) as [[[g|e] w1] t1]; cbn [snd].
  - destruct dry.
    + eexists. split; [reflexivity|]. repeat split.
    + pose proof (add_anki_note_effects (note_fields word g) deck model w1) as Ha.
      unfold effects in Ha.
      destruct (add_anki_note (note_fields word g) deck model w1) as [[[res|e] w2] t2];
        cbn in Ha; subst t2; eexists; (split; [reflexivity|]); repeat split.
  - exists []. rewrite app_nil_r. repeat split.
Qed.

Lemma query_no_find word gm w :
  filter is_find_notes (effects (query_gemini_for_word word gm 2 1 w)) = [].
Proof.
  apply (filter_implied is_find_notes is_post); [apply is_action_post|].
  apply query_no_post.
Qed.

Lemma query_no_add word gm w :
  filter is_add_note (effects (query_gemini_for_word word gm 2 1 w)) = [].
Proof.
  apply (filter_implied is_add_note is_post); [apply is_action_post|].
  apply query_no_post.
Qed.

(** The effects of one word: those of the existence check and, when it
    answers [False], those of the [try] block between entries of the log,
    and the pause. *)
Lemma process_word_effects word n deck model gm dry w :
  exists b w1 t1,
    note_exists word deck model w = (Ok b, w1, t1)
    /\ effects (process_word word n deck model gm dry w)
       = if b then (t1 ++ [ELog INFO (LSkipping word deck)])%list
         else
           let run := generate_and_add word deck model gm dry w1 in
           (t1 ++ ELog INFO (LProcessing n word) :: effects run
               ++ match fst (fst run) with
                  | Ok _ => []
                  | Raise e => [ELog ERROR (LFailed word n e)]
                  end
               ++ [ESleep 1])%list.
Proof.
  destruct (note_exists_effects word deck model w) as (b & w1 & t1 & Hne & _).
  exists b, w1, t1. split; [exact Hne|].
  destruct b.
  - now rewrite (process_word_found _ _ _ _ _ _ _ _ _ Hne).
  - rewrite (process_word_not_found _ _ _ _ _ _ _ _ _ Hne).
    now destruct (generate_and_add word deck model gm dry w1) as [[r w2] t2].
Qed.

Lemma process_word_find_calls word n deck model gm dry w :
  filter is_find_notes (effects (process_word word n deck model gm dry w))
  = [EPost ANKI_CONNECT_URL (find_payload word deck model)].
Proof.
  destruct (process_word_effects word n deck model gm dry w)
    as (b & w1 & t1 & Hne & ->).
  pose proof (note_exists_find_calls word deck model w) as Hfind.
  rewrite Hne in Hfind. unfold effects in Hfind. cbn [snd] in Hfind.
  destruct b.
  - now rewrite filter_app, Hfind.
  - cbv zeta.
    destruct (generate_and_add_effects word deck model gm dry w1)
      as (rest & -> & Hrest & _).
    rewrite filter_app, Hfind. cbn [filter is_find_notes is_action].
    rewrite !filter_app, query_no_find, Hrest.
    now destruct (fst (fst (generate_and_add word deck model gm dry w1))).
Qed.

(** X17. In both modes and whatever the replies, a run makes exactly one
    existence check for each word, in the order of the rows, and none for a
    row without a word. *)
Theorem one_existence_check_per_word rows deck model gm dry w :
  filter is_find_notes (effects (process_csv_file rows deck model gm dry w))
  = map (fun word => EPost ANKI_CONNECT_URL (find_payload word deck model))
        (words rows).
Proof.
  unfold process_csv_file. generalize 0 as n. revert w.
  induction rows as [|row rows IH]; intros w n; [reflexivity|].
  destruct (process_row_ok row (n + 1) deck model gm dry w) as (w1 & t1 & Hrow).
  rewrite (process_rows_cons _ _ _ _ _ _ _ _ _ _ Hrow).
  specialize (IH w1 (n + 1)).
  destruct (process_rows rows (n + 1) deck model gm dry w1) as [[r w2] t2].
  unfold effects in *. cbn [snd] in *. rewrite filter_app, IH.
  rewrite process_row_word in Hrow. cbn [words].
  destruct (row_word row) as [word|].
  - pose proof (process_word_find_calls word (n + 1) deck model gm dry w) as Hw.
    rewrite Hrow in Hw. unfold effects in Hw. cbn [snd] in Hw. now rewrite Hw.
  - unfold ret in Hrow. now injection Hrow as _ <-.
Qed.

Lemma generate_and_add_query_fails word deck model gm dry w e w1 t1 :
  query_gemini_for_word word gm 2 1 w = (Raise e, w1, t1) ->
  generate_and_add word deck model gm dry w = (Raise e, w1, t1).
Proof.
  intros H. unfold generate_and_add, bind. now rewrite H.
Qed.

(** X18. In normal mode, for a word that the deck lacks: when the
    generation returns a record, exactly one insertion is requested, with the
    word and the fields of that record; when the generation fails, no
    insertion is requested and the failure is logged with the word and its
    row number. *)
Theorem insertion_follows_generation word n deck model gm w w1 t1 :
  note_exists word deck model w = (Ok false, w1, t1) ->
  match query_gemini_for_word word gm 2 1 w1 with
  | (Ok gemini, _, _) =>
      filter is_add_note (effects (process_word word n deck model gm false w))
      = [EPost ANKI_CONNECT_URL (add_payload (note_fields word gemini) deck model)]
  | (Raise e, _, _) =>
      filter is_add_note (effects (process_word word n deck model gm false w)) = []
      /\ In (ELog ERROR (LFailed word n e))
            (effects (process_word word n deck model gm false w))
  end.
Proof.
  intros Hne.
  destruct (process_word_effects word n deck model gm false w)
    as (b & w1' & t1' & Hne' & Heff).
  rewrite Hne in Hne'. injection Hne' as <- <- <-.
  destruct (note_exists_effects word deck model w) as (b & w1' & t1' & Hne' & _ & Hadd & _).
  rewrite Hne in Hne'. injection Hne' as <- <- <-.
  rewrite Heff. cbv zeta.
  destruct (generate_and_add_effects word deck model gm false w1)
    as (rest & Hrun & _ & _ & Hrest).
  rewrite Hrun.
  pose proof (query_no_add word gm w1) as Hq.
  destruct (query_gemini_for_word word gm 2 1 w1) as [[[g|e] w2] t2] eqn:Equery.
  - rewrite filter_app, Hadd. cbn [app filter is_add_note is_action].
    rewrite !filter_app, Hq, Hrest.
    now destruct (fst (fst (generate_and_add word deck model gm false w1))).
  - rewrite (generate_and_add_query_fails _ _ _ _ _ _ _ _ _ Equery). cbn [fst].
    split.
    + rewrite filter_app, Hadd. cbn [app filter is_add_note is_action].
      now rewrite !filter_app, Hq, Hrest.
    + apply in_or_app. right. right.
      apply in_or_app. right. now left.
Qed.

Lemma note_exists_no_generate word deck model w :
  generate_calls (effects (note_exists word deck model w)) = [].
Proof.
  pose proof (note_exists_run World requests_post json_loads word deck model w) as H.
  cbv zeta in H.
  destruct (requests_post ANKI_CONNECT_URL (find_payload word deck model) w)
    as [reply w1].
  rewrite H. now destruct (exists_answer json_loads reply).
Qed.

(** One word: at most one insertion request and at most three calls of
    the backend. *)
Lemma process_word_calls_bound word n deck model gm dry w :
  (List.length (filter is_add_note
                       (effects (process_word word n deck model gm dry w))) <= 1)%nat
  /\ (List.length (generate_calls
                     (effects (process_word word n deck model gm dry w))) <= 3)%nat.
Proof.
  destruct (process_word_effects word n deck model gm dry w)
    as (b & w1 & t1 & Hne & ->).
  destruct (note_exists_effects word deck model w) as (b' & w1' & t1' & Hne' & _ & Hadd & _).
  rewrite Hne in Hne'. injection Hne' as <- <- <-.
  pose proof (note_exists_no_generate word deck model w) as Hgen.
  rewrite Hne in Hgen. unfold effects in Hgen. cbn [snd] in Hgen.
  destruct b.
  - unfold generate_calls in *. rewrite !filter_app, Hadd, Hgen. cbn. lia.
  - cbv zeta.
    destruct (generate_and_add_effects word deck model gm dry w1)
      as (rest & -> & _ & Hrg & Hra).
    pose proof (query_no_add word gm w1) as Hq.
    pose proof (query_loop_calls_bound World generate_content json_loads json_dumps
                  gm (prompt_for word) 2 1%Q 3 0 None w1 eq_refl) as Hb.
    fold (query_gemini_for_word word gm 2 1 w1) in Hb.
    unfold generate_calls in *.
    rewrite !filter_app, Hadd, Hgen. cbn [app filter is_add_note is_action is_generate].
    rewrite !filter_app, Hq, Hra, Hrg.
    destruct (fst (fst (generate_and_add word deck model gm dry w1)));
      destruct (query_gemini_for_word word gm 2 1 w1) as [[[g|e'] w2] t2];
      destruct dry; cbn in *; rewrite ?app_nil_r, ?length_app; cbn; lia.
Qed.

(** X19. A run requests at most one insertion per word and calls the
    backend at most three times per word, whatever the replies. *)
Theorem calls_bounded_by_words rows deck model gm dry w :
  (List.length (filter is_add_note
                       (effects (process_csv_file rows deck model gm dry w)))
   <= List.length (words rows))%nat
  /\ (List.length (generate_calls
                     (effects (process_csv_file rows deck model gm dry w)))
      <= 3 * List.length (words rows))%nat.
Proof.
  unfold process_csv_file. generalize 0 as n. revert w.
  induction rows as [|row rows IH]; intros w n; [cbn; lia|].
  destruct (process_row_ok row (n + 1) deck model gm dry w) as (w1 & t1 & Hrow).
  rewrite (process_rows_cons _ _ _ _ _ _ _ _ _ _ Hrow).
  specialize (IH w1 (n + 1)).
  destruct (process_rows rows (n + 1) deck model gm dry w1) as [[r w2] t2].
  unfold effects, generate_calls in *. cbn [snd] in *.
  rewrite !filter_app, !length_app.
  rewrite process_row_word in Hrow. cbn [words].
  destruct (row_word row) as [word|].
  - pose proof (process_word_calls_bound word (n + 1) deck model gm dry w) as Hw.
    rewrite Hrow in Hw. unfold effects, generate_calls in Hw. cbn [snd] in Hw.
    cbn [List.length]. lia.
  - unfold ret in Hrow. injection Hrow as _ <-. cbn. lia.
Qed.

(** X20. The note of a generated word takes each of its fields from the
    record: a record that the generation client returns has the five keys, so
    the empty defaults of the driver are never used. *)
Theorem note_fields_of_record word model retries backoff w r w' t :
  query_gemini_for_word word model retries backoff w = (Ok r, w', t) ->
  exists m tr mt ex pt,
    r = [("meaning", m); ("translation", tr); ("meaning_translation", mt);
         ("example_phrase", ex); ("phrase_translation", pt)]
    /\ note_fields word r
       = [("Word", word); ("Meaning", m); ("translation", tr);
          ("Meaning Translation", mt); ("example phrase", ex);
          ("phrase translation", pt)].
Proof.
  intros Hrun. unfold query_gemini_for_word in Hrun.
  destruct (query_loop_ok World generate_content json_loads json_dumps
              _ _ _ _ _ _ _ 0 None w t eq_refl Hrun) as (w0 & t0 & Hatt).
  destruct (attempt_once_ok World generate_content json_loads json_dumps
              _ _ _ _ _ _ Hatt) as (raw & members & _ & _ & Hnorm).
  rewrite normalize_object in Hnorm. injection Hnorm as <-.
  cbn [map RECORD_KEYS]. do 5 eexists. split; reflexivity.
Qed.

Lemma row_word_clean row : row_word (clean_row row) = row_word row.
Proof.
  unfold clean_row.
  destruct (row_word row) as [word|] eqn:E; [|reflexivity].
  unfold row_word in *. destruct row as [|cell cells]; [discriminate|].
  destruct (Str.is_empty (Str.strip cell)) eqn:Hempty; [discriminate|].
  injection E as <-.
  now rewrite StrFacts.strip_idempotent, Hempty.
Qed.

(** X21. Only the trimmed first cell of each row matters: the cells after
    the first and the white space around the first change nothing in a
    run. *)
Theorem only_trimmed_first_cell_matters rows deck model gm dry w :
  process_csv_file rows deck model gm dry w
  = process_csv_file (map clean_row rows) deck model gm dry w.
Proof.
  unfold process_csv_file. generalize 0 as n. revert w.
  induction rows as [|row rows IH]; intros w n; [reflexivity|].
  cbn [map process_rows].
  rewrite (process_row_word (clean_row row)), row_word_clean, <- process_row_word.
  unfold bind.
  destruct (process_row row (n + 1) deck model gm dry w) as [[[u|e] w1] t1];
    [|reflexivity].
  now rewrite IH.
Qed.

(** *** Preview mode and the read side *)

Local Abbreviation word_reads :=
  (word_reads World requests_post generate_content json_loads json_dumps).
Local Abbreviation word_world :=
  (word_world World requests_post generate_content json_loads json_dumps).
Local Abbreviation run_reads :=
  (run_reads World requests_post generate_content json_loads json_dumps).

Lemma read_calls_without_find (t : list event) :
  filter is_find_notes t = [] -> read_calls t = generate_calls t.
Proof.
  unfold read_calls, generate_calls.
  induction t as [|e t IH]; [reflexivity|].
  cbn [filter]. destruct (is_find_notes e) eqn:E; [discriminate|].
  intros H. cbn [orb]. now rewrite (IH H).
Qed.

Lemma read_calls_none (t : list event) :
  filter is_find_notes t = [] -> generate_calls t = [] -> read_calls t = [].
Proof. intros Hf Hg. now rewrite read_calls_without_find. Qed.

(** The generation client starts with a call of the backend for the
    word. *)
Lemma query_first_call word gm w :
  exists rest,
    generate_calls (effects (query_gemini_for_word word gm 2 1 w))
    = EGenerate gm (prompt_for word) :: rest.
Proof.
  unfold query_gemini_for_word. rewrite query_loop_turn.
  change (0 <=? 2) with true. cbv iota.
  unfold try_except.
  destruct (attempt_once gm (prompt_for word) w) as [[[a|e] w1] t1] eqn:Eatt;
    apply attempt_once_trace in Eatt; subst t1.
  - now exists [].
  - unfold bind at 1. unfold logging, emit. unfold bind at 1.
    unfold sleep.
    destruct (Qle_bool 0 (1 * inject_Z (0 + 1))); [|now exists []].
    unfold emit.
    destruct (query_loop gm (prompt_for word) 2 1 (0 + 1) (Some e) w1)
      as [[r3 w3] t3].
    unfold effects. cbn. eexists. reflexivity.
Qed.

Lemma generate_and_add_world word deck model gm dry w :
  snd (fst (generate_and_add word deck model gm dry w))
  = match query_gemini_for_word word gm 2 1 w with
    | (Ok gemini, w1, _) =>
        if dry then w1
        else snd (requests_post ANKI_CONNECT_URL
                                (add_payload (note_fields word gemini) deck model) w1)
    | (Raise _, w1, _) => w1
    end.
Proof.
  destruct dry.
  - rewrite generate_and_add_preview.
    now destruct (query_gemini_for_word word gm 2 1 w) as [[[g|e] w1] t1].
  - apply generate_and_add_normal_world.
Qed.

(** The read-side calls of one word and the world it leaves, in either
    mode. *)
Lemma process_word_reads dry word n deck model gm w :
  read_calls (effects (process_word word n deck model gm dry w))
  = word_reads word deck model gm w
  /\ snd (fst (process_word word n deck model gm dry w))
     = word_world dry word deck model gm w.
Proof.
  destruct (note_exists_effects word deck model w)
    as (b & w1 & t1 & Hne & _ & _ & Hreads & _).
  pose proof (note_exists_find_calls word deck model w) as Hfind.
  rewrite Hne in Hfind. unfold effects in Hfind. cbn [snd] in Hfind.
  unfold word_reads, word_world. rewrite Hne.
  destruct b.
  - rewrite (process_word_found _ _ _ _ _ _ _ _ _ Hne).
    unfold effects. cbn [fst snd]. split; [|reflexivity].
    now rewrite read_calls_app, Hreads.
  - rewrite (process_word_not_found _ _ _ _ _ _ _ _ _ Hne).
    pose proof (generate_and_add_world word deck model gm dry w1) as Hworld.
    destruct (generate_and_add_effects word deck model gm dry w1)
      as (rest & Hrun & Hrf & Hrg & _).
    pose proof (query_no_find word gm w1) as Hqf.
    destruct (generate_and_add word deck model gm dry w1) as [[r w2] t2].
    unfold effects in *. cbn [fst snd] in *. subst t2.
    split.
    + rewrite read_calls_app, Hreads, read_calls_log, !read_calls_app.
      rewrite (read_calls_without_find _ Hqf), (read_calls_none _ Hrf Hrg).
      cbn [app]. f_equal.
      destruct (query_gemini_for_word word gm 2 1 w1) as [[[g|e] w3] t3];
        destruct r; cbn; now rewrite ?app_nil_r.
    + rewrite Hworld.
      now destruct (query_gemini_for_word word gm 2 1 w1) as [[[g|e] w3] t3].
Qed.

Lemma process_rows_reads dry rows deck model gm : forall n w,
  read_calls (effects (process_rows rows n deck model gm dry w))
  = run_reads dry rows deck model gm w.
Proof.
  induction rows as [|row rows IH]; intros n w; [reflexivity|].
  destruct (process_row_ok row (n + 1) deck model gm dry w) as (w1 & t1 & Hrow).
  rewrite (process_rows_cons _ _ _ _ _ _ _ _ _ _ Hrow).
  cbn [run_reads].
  rewrite process_row_word in Hrow.
  destruct (row_word row) as [word|].
  - destruct (process_word_reads dry word (n + 1) deck model gm w) as [Hr Hw].
    rewrite Hrow in Hr, Hw. unfold effects in Hr. cbn [fst snd] in Hr, Hw.
    rewrite <- Hr, <- Hw, <- (IH (n + 1) w1).
    destruct (process_rows rows (n + 1) deck model gm dry w1) as [[r w2] t2].
    unfold effects. cbn [snd]. now rewrite read_calls_app.
  - unfold ret in Hrow. injection Hrow as <- <-.
    rewrite <- (IH (n + 1) w).
    now destruct (process_rows rows (n + 1) deck model gm dry w) as [[r w2] t2].
Qed.

(** C9. In preview mode a run posts no [addNote] request, for any rows and
    any world, and the read side goes on as in normal mode.  In either mode
    the read-side calls of a word are its existence check, always, followed,
    unless the check answers [True], by the calls of the generation client,
    which start with the call of the backend for the word; the read-side
    calls of a run are those of its words, in order.  The two modes differ
    only in the world that a generated word leaves, which in normal mode is
    the world after the insertion request: when that request leaves the
    world as it was, the read-side calls of a whole run are the same in both
    modes. *)
Theorem preview_issues_no_add_note :
  (forall rows deck model gm w,
      filter is_add_note (effects (process_csv_file rows deck model gm true w)) = [])
  /\
  (forall dry word n deck model gm w,
      read_calls (effects (process_word word n deck model gm dry w))
      = word_reads word deck model gm w
      /\ snd (fst (process_word word n deck model gm dry w))
         = word_world dry word deck model gm w)
  /\
  (forall word gm w,
      exists rest,
        generate_calls (effects (query_gemini_for_word word gm 2 1 w))
        = EGenerate gm (prompt_for word) :: rest)
  /\
  (forall dry rows deck model gm w,
      read_calls (effects (process_csv_file rows deck model gm dry w))
      = run_reads dry rows deck model gm w)
  /\
  (insertion_inert World requests_post ->
   forall rows deck model gm w,
     read_calls (effects (process_csv_file rows deck model gm true w))
     = read_calls (effects (process_csv_file rows deck model gm false w))).
Proof.
  repeat apply conj.
  - intros rows deck model gm w. apply process_rows_preview_no_add.
  - intros dry word n deck model gm w. apply process_word_reads.
  - intros word gm w. apply query_first_call.
  - intros dry rows deck model gm w. apply process_rows_reads.
  - intros Hinert rows deck model gm w.
    apply (process_rows_modes rows deck model gm Hinert 0 w).
Qed.

End PipelineFacts.

(** ** The entry point *)

Section MainFacts.

Variable World : Type.
Variable requests_post : string -> json -> World -> http_reply * World.
Variable generate_content : string -> string -> World -> backend_reply * World.
Variable json_loads : string -> option json.
Variable json_dumps : json -> string.
Variable genai_Client : dict Config.kwarg -> World -> result unit * World.
Variable open_csv : string -> World -> result (list (result (list string))) * World.

Local Abbreviation main :=
  (main World requests_post generate_content json_loads json_dumps
        genai_Client open_csv).
Local Abbreviation process_csv_file :=
  (process_csv_file World requests_post generate_content json_loads json_dumps).
Local Abbreviation process_csv_reader :=
  (process_csv_reader World requests_post generate_content json_loads json_dumps).

Lemma pipeline_events_app (a b : list main_event) :
  pipeline_events (a ++ b) = (pipeline_events a ++ pipeline_events b)%list.
Proof.
  induction a as [|e a IH]; [reflexivity|].
  destruct e; cbn; now rewrite IH.
Qed.

Lemma pipeline_events_run (t : list event) : pipeline_events (map MRun t) = t.
Proof. induction t as [|e t IH]; [reflexivity|]. cbn. now rewrite IH. Qed.

Lemma filter_run (p : main_event -> bool) (t : list event) :
  (forall e, p (MRun e) = false) -> filter p (map MRun t) = [].
Proof.
  intros Hp. induction t as [|e t IH]; [reflexivity|].
  cbn. now rewrite Hp.
Qed.

(** The key that [main] selects, from the three sources in order. *)
Lemma select_first_nonempty (a : Config.args) (environ : dict string) :
  let key := Config.select_api_key a environ in
  match first_nonempty [Config.arg_api_key a;
                        Dict.get environ "GEMINI_API_KEY";
                        Dict.get environ "GOOGLE_API_KEY"] with
  | Some k => key = Some k /\ Config.truthy key = true
  | None => Config.truthy key = false
  end.
Proof.
  unfold Config.select_api_key, Config.py_or. cbn [first_nonempty].
  destruct (Config.arg_api_key a) as [[|c s]|];
    destruct (Dict.get environ "GEMINI_API_KEY") as [[|c1 s1]|];
    destruct (Dict.get environ "GOOGLE_API_KEY") as [[|c2 s2]|];
    cbn; auto.
Qed.

(** X22. [main] takes the key from the command line, else from
    [GEMINI_API_KEY], else from [GOOGLE_API_KEY], an empty text counting as
    absent.  With a key it constructs the client with that key alone and
    does not warn; without one it warns first and constructs the client
    without arguments.  The client is constructed once and never receives
    [http_options]. *)
Theorem main_selects_api_key (a : Config.args) (environ : dict string) (w : World) :
  exists rest,
    snd (main a environ w)
    = (match first_nonempty [Config.arg_api_key a;
                             Dict.get environ "GEMINI_API_KEY";
                             Dict.get environ "GOOGLE_API_KEY"] with
       | Some k => [MClient [("api_key", Config.KText k)]]
       | None => [MWarnNoKey; MClient []]
       end ++ rest)%list
    /\ filter is_warning rest = []
    /\ filter is_client rest = [].
Proof.
  pose proof (select_first_nonempty a environ) as Hkey. cbv zeta in Hkey.
  unfold main.
  set (key := Config.select_api_key a environ) in *.
  assert (Hhead :
            ((if Config.truthy key then [] else [MWarnNoKey])
               ++ [MClient (Config.client_kwargs key None)])%list
            = match first_nonempty [Config.arg_api_key a;
                                    Dict.get environ "GEMINI_API_KEY";
                                    Dict.get environ "GOOGLE_API_KEY"] with
              | Some k => [MClient [("api_key", Config.KText k)]]
              | None => [MWarnNoKey; MClient []]
              end).
  { destruct (first_nonempty _) as [k|].
    - destruct Hkey as [Hk Ht]. rewrite Ht, Hk.
      unfold Config.client_kwargs. rewrite <- Hk, Ht. reflexivity.
    - rewrite Hkey. unfold Config.client_kwargs.
      destruct key as [k|]; [rewrite Hkey|]; reflexivity. }
  cbv zeta.
  destruct (genai_Client (Config.client_kwargs key None) w) as [[u|e] w1].
  - destruct (open_csv (Config.arg_csv a) w1) as [[items|e] w2].
    + destruct (process_csv_reader items (Config.arg_deck a) (Config.arg_model a)
                  (Config.arg_gemini_model a) (Config.arg_dry_run a) w2)
        as [[r w3] t].
      exists (MOpen (Config.arg_csv a) :: map MRun t). cbn [snd].
      rewrite <- Hhead, <- app_assoc. cbn [app filter is_warning is_client].
      repeat split; now apply filter_run.
    + exists [MOpen (Config.arg_csv a)]. cbn [snd].
      rewrite <- Hhead, <- app_assoc. repeat split.
  - exists []. cbn [snd]. rewrite app_nil_r. repeat split. exact Hhead.
Qed.

(** X23. With [--dry-run], [main] never requests an insertion, whatever the
    key, the file and the replies. *)
Theorem main_dry_run_no_insertion (a : Config.args) (environ : dict string) (w : World) :
  Config.arg_dry_run a = true ->
  filter is_add_note (pipeline_events (snd (main a environ w))) = [].
Proof.
  intros Hdry. unfold main. cbv zeta.
  destruct (genai_Client _ w) as [[u|e] w1].
  - destruct (open_csv (Config.arg_csv a) w1) as [[items|e] w2].
    + rewrite Hdry.
      pose proof (process_reader_preview_no_add World requests_post generate_content
                    json_loads json_dumps items (Config.arg_deck a)
                    (Config.arg_model a) (Config.arg_gemini_model a) 0 w2) as Hrun.
      fold (process_csv_reader items (Config.arg_deck a) (Config.arg_model a)
                               (Config.arg_gemini_model a) true w2) in Hrun.
      destruct (process_csv_reader items (Config.arg_deck a) (Config.arg_model a)
                  (Config.arg_gemini_model a) true w2) as [[r w3] t].
      unfold effects in Hrun. cbn [snd] in *.
      rewrite !pipeline_events_app, pipeline_events_run.
      destruct (Config.truthy (Config.select_api_key a environ)); exact Hrun.
    + cbn [snd]. rewrite pipeline_events_app.
      now destruct (Config.truthy (Config.select_api_key a environ)).
  - cbn [snd]. rewrite pipeline_events_app.
    now destruct (Config.truthy (Config.select_api_key a environ)).
Qed.

(** X24. When the construction of the client or the opening of the file
    raises, [main] raises the same exception and nothing is sent to the note
    store or to the backend.  Once the file is open, [main] runs the loop
    with the deck, the note type, the model and the mode of the command
    line: when the reader gives all its rows, [main] ends normally, whatever
    happens to the words, and its pipeline is the run over those rows; when
    the reader raises after some rows, [main] raises that exception after
    the run over those rows. *)
Theorem main_outcome (a : Config.args) (environ : dict string) (w : World) :
  let kwargs := Config.client_kwargs (Config.select_api_key a environ) None in
  let run rows w2 :=
    effects (process_csv_file rows (Config.arg_deck a) (Config.arg_model a)
                              (Config.arg_gemini_model a) (Config.arg_dry_run a) w2) in
  match genai_Client kwargs w with
  | (Raise e, w1) =>
      fst (main a environ w) = (Raise e, w1)
      /\ pipeline_events (snd (main a environ w)) = []
  | (Ok _, w1) =>
      match open_csv (Config.arg_csv a) w1 with
      | (Raise e, w2) =>
          fst (main a environ w) = (Raise e, w2)
          /\ pipeline_events (snd (main a environ w)) = []
      | (Ok items, w2) =>
          (forall rows,
              items = map Ok rows ->
              fst (fst (main a environ w)) = Ok tt
              /\ pipeline_events (snd (main a environ w)) = run rows w2)
          /\
          (forall rows e rest,
              items = (map Ok rows ++ Raise e :: rest)%list ->
              fst (fst (main a environ w)) = Raise e
              /\ pipeline_events (snd (main a environ w)) = run rows w2)
      end
  end.
Proof.
  cbv zeta. unfold main. cbv zeta.
  destruct (genai_Client _ w) as [[u|e] w1].
  - destruct (open_csv (Config.arg_csv a) w1) as [[items|e] w2].
    + split.
      * intros rows ->.
        unfold process_csv_reader, process_csv_file.
        rewrite (process_reader_rows World requests_post generate_content
                   json_loads json_dumps).
        destruct (process_rows_ok World requests_post generate_content json_loads
                    json_dumps rows (Config.arg_deck a) (Config.arg_model a)
                    (Config.arg_gemini_model a) (Config.arg_dry_run a) 0 w2)
          as (w3 & t & Hrun).
        rewrite Hrun. unfold effects. cbn [fst snd]. split; [reflexivity|].
        rewrite !pipeline_events_app, pipeline_events_run.
        now destruct (Config.truthy (Config.select_api_key a environ)).
      * intros rows e rest ->.
        unfold process_csv_reader, process_csv_file.
        rewrite (process_reader_raises World requests_post generate_content
                   json_loads json_dumps).
        destruct (process_rows World requests_post generate_content json_loads
                    json_dumps rows 0 (Config.arg_deck a) (Config.arg_model a)
                    (Config.arg_gemini_model a) (Config.arg_dry_run a) w2)
          as [[r w3] t].
        unfold effects. cbn [fst snd]. split; [reflexivity|].
        rewrite !pipeline_events_app, pipeline_events_run.
        now destruct (Config.truthy (Config.select_api_key a environ)).
    + cbn [fst snd]. split; [reflexivity|]. rewrite pipeline_events_app.
      now destruct (Config.truthy (Config.select_api_key a environ)).
  - cbn [fst snd]. split; [reflexivity|]. rewrite pipeline_events_app.
    now destruct (Config.truthy (Config.select_api_key a environ)).
Qed.

End MainFacts.

(* ===================================================================== *)
(** * Examples *)

Module ExampleFacts.
Import Examples.

Example pet_reply_extracted :
  find_json_in_text Tiny.loads pet_reply
  = Ok (JObject [("meaning", JString "a pet")]).
Proof. reflexivity. Qed.

Example added_run :
  effects (run [["cat"]; []; ["   "]] false lacks_word)
  = [find_query_for "cat";
     ELog INFO (LProcessing 1 "cat");
     generation_of "cat";
     ELog INFO (LGenerated "cat"
                  [("Word", "cat"); ("Meaning", "a pet"); ("translation", EmptyString);
                   ("Meaning Translation", EmptyString);
                   ("example phrase", EmptyString);
                   ("phrase translation", EmptyString)]);
     EPost ANKI_CONNECT_URL
       (add_payload
          [("Word", "cat"); ("Meaning", "a pet"); ("translation", EmptyString);
           ("Meaning Translation", EmptyString);
           ("example phrase", EmptyString);
           ("phrase translation", EmptyString)] "EnglishAI" "EnglishAI");
     ELog INFO (LAdded (JInt 7));
     ESleep 1].
Proof. vm_compute. reflexivity. Qed.

(** Two words and two rows without a word: two notes, in the order of the
    rows. *)
Example two_words_two_notes :
  filter is_add_note
         (effects (Stateless.run [["resilience"]; [EmptyString]; ["  "]; ["buoyant"]]
                                 false))
  = [EPost ANKI_CONNECT_URL
       (add_payload (note_fields "resilience" [("meaning", "a pet")])
                    "EnglishAI" "EnglishAI");
     EPost ANKI_CONNECT_URL
       (add_payload (note_fields "buoyant" [("meaning", "a pet")])
                    "EnglishAI" "EnglishAI")].
Proof. vm_compute. reflexivity. Qed.

End ExampleFacts.

(* ===================================================================== *)
(** * Concrete runs *)

Import Examples.

(** Exhaustion of the retries on the silent world, with the defaults. *)
Lemma generate_exhausts_retries_witness :
  0 <= 2
  /\ (0 <= 1)%Q
  /\ attempts_fail Scripted.world Scripted.generate_content Tiny.loads Tiny.dumps
       DEFAULT_GEMINI_MODEL (prompt_for "cat") (Z.to_nat (2 + 1)) silent
     = Some ([BackendError "no reply"; BackendError "no reply";
              BackendError "no reply"], silent)
  /\ exists es0 e_last t,
      [BackendError "no reply"; BackendError "no reply"; BackendError "no reply"]
      = (es0 ++ [e_last])%list
      /\ query "cat" 2 1 silent = (Raise (GeminiFailed (2 + 1) (Some e_last)), silent, t)
      /\ Z.of_nat (List.length (generate_calls t)) = 2 + 1.
Proof.
  assert (H0 : 0 <= 2) by lia.
  assert (H1 : (0 <= 1)%Q) by (unfold Qle; simpl; lia).
  assert (H2 : attempts_fail Scripted.world Scripted.generate_content Tiny.loads
                 Tiny.dumps DEFAULT_GEMINI_MODEL (prompt_for "cat")
                 (Z.to_nat (2 + 1)) silent
               = Some ([BackendError "no reply"; BackendError "no reply";
                        BackendError "no reply"], silent))
    by (vm_compute; reflexivity).
  split; [exact H0|]. split; [exact H1|]. split; [exact H2|].
  exact (generate_exhausts_retries Scripted.world Scripted.generate_content
           Tiny.loads Tiny.dumps "cat" DEFAULT_GEMINI_MODEL 2 1 silent _ silent
           H0 H1 H2).
Defined.

(** C3, on the silent world with the defaults: the three attempts fail, and
    the loop sleeps after each of them, the last one included: three seconds
    pass between the failure of the final attempt and the [RuntimeError],
    although no attempt follows. *)
Theorem query_sleeps_after_final_attempt :
  fst (fst (query "cat" 2 1 silent))
  = Raise (GeminiFailed 3 (Some (BackendError "no reply")))
  /\ filter (fun e => is_generate e || is_sleep e) (effects (query "cat" 2 1 silent))
     = [generation_of "cat"; ESleep 1;
        generation_of "cat"; ESleep 2;
        generation_of "cat"; ESleep 3].
Proof. split; vm_compute; reflexivity. Qed.

(** The extraction of the span of [pet_reply]. *)
Lemma extract_commentary_around_span_witness :
  Str.brace_free "Sure, here it is: " = true
  /\ Str.brace_free " Hope it helps." = true
  /\ Spans.is_balanced_span pet_span = true
  /\ Tiny.loads (Str.strip ("Sure, here it is: " ++ pet_span ++ " Hope it helps.")) = None
  /\ Tiny.loads pet_span = Some (JObject [("meaning", JString "a pet")])
  /\ Spans.balanced_spans
       (Str.strip ("Sure, here it is: " ++ pet_span ++ " Hope it helps.")) = [pet_span]
  /\ find_json_in_text Tiny.loads ("Sure, here it is: " ++ pet_span ++ " Hope it helps.")
     = Ok (JObject [("meaning", JString "a pet")]).
Proof.
  assert (H1 : Str.brace_free "Sure, here it is: " = true) by reflexivity.
  assert (H2 : Str.brace_free " Hope it helps." = true) by reflexivity.
  assert (H3 : Spans.is_balanced_span pet_span = true) by reflexivity.
  assert (H4 : Tiny.loads (Str.strip ("Sure, here it is: " ++ pet_span
                                       ++ " Hope it helps.")) = None)
    by reflexivity.
  assert (H5 : Tiny.loads pet_span = Some (JObject [("meaning", JString "a pet")]))
    by reflexivity.
  split; [exact H1|]. split; [exact H2|]. split; [exact H3|].
  split; [exact H4|]. split; [exact H5|].
  exact (proj2 (extract_commentary_around_span Tiny.loads)
               "Sure, here it is: " pet_span " Hope it helps."
               (JObject [("meaning", JString "a pet")]) H1 H2 H3 H4 H5).
Defined.

(** The record of the reply without [phrase_translation]. *)
Lemma lexical_record_shape_witness :
  query "cat" 2 1 answers_partial = (Ok partial_record, silent, [generation_of "cat"])
  /\ exists w0 raw members,
      Scripted.generate_content DEFAULT_GEMINI_MODEL (prompt_for "cat") w0
      = (GenText (Some raw), silent)
      /\ find_json_in_text Tiny.loads raw = Ok (JObject members)
      /\ Dict.keys partial_record = RECORD_KEYS
      /\ forall k, In k RECORD_KEYS ->
           match Dict.get members k with
           | None => Dict.get partial_record k = Some EmptyString
           | Some (JString s) => Dict.get partial_record k = Some (Str.strip s)
           | Some v => Dict.get partial_record k = Some (Tiny.dumps v)
           end.
Proof.
  assert (Hrun : query "cat" 2 1 answers_partial
                 = (Ok partial_record, silent, [generation_of "cat"]))
    by (vm_compute; reflexivity).
  split; [exact Hrun|].
  exact (proj2 (lexical_record_shape Scripted.world Scripted.generate_content
                  Tiny.loads Tiny.dumps)
               "cat" DEFAULT_GEMINI_MODEL 2 1%Q answers_partial partial_record silent
               [generation_of "cat"] Hrun).
Defined.

(** A store that has the word: after the find query and the log entry, the
    loop goes on with the next row. *)
Lemma skip_existing_word_witness :
  Str.is_empty (Str.strip " cat ") = false
  /\ check (Str.strip " cat ") has_word = (Ok true, silent, [find_query_for "cat"])
  /\ rows_from [[" cat "]; ["dog"]] 0 false has_word
     = let '(r, w2, t2) := rows_from [["dog"]] (0 + 1) false silent in
       (r, w2, (([find_query_for "cat"]
                   ++ [ELog INFO (LSkipping (Str.strip " cat ") "EnglishAI")])
                  ++ t2)%list).
Proof.
  assert (H1 : Str.is_empty (Str.strip " cat ") = false) by reflexivity.
  assert (H2 : check (Str.strip " cat ") has_word
               = (Ok true, silent, [find_query_for "cat"]))
    by (vm_compute; reflexivity).
  split; [exact H1|]. split; [exact H2|].
  exact (proj2 (proj2 (proj2
           (skip_existing_word Scripted.world Scripted.requests_post
              Scripted.generate_content Tiny.loads Tiny.dumps
              " cat " [] [["dog"]] 0 "EnglishAI" "EnglishAI" DEFAULT_GEMINI_MODEL
              false has_word silent [find_query_for "cat"] H1 H2)))).
Defined.

(** C2 as stated fails: both words are skipped, and no sleep separates the
    skip of the first from the existence check of the second. *)
Lemma skipped_word_gets_no_sleep :
  effects (run [["cat"]; ["dog"]] false has_both)
  = [find_query_for "cat"; ELog INFO (LSkipping "cat" "EnglishAI");
     find_query_for "dog"; ELog INFO (LSkipping "dog" "EnglishAI")]
  /\ sleeps (effects (run [["cat"]; ["dog"]] false has_both)) = [].
Proof. split; vm_compute; reflexivity. Qed.

(** A store that lacks the word: the iteration ends with the pause. *)
Lemma sleep_after_word_not_skipped_witness :
  Str.is_empty (Str.strip "cat") = false
  /\ check (Str.strip "cat") lacks_word
     = (Ok false, lacks_word_checked, [find_query_for "cat"])
  /\ exists w2 t2,
      rows_from [["cat"]; ["dog"]] 0 false lacks_word
      = (let '(r, w3, t3) := rows_from [["dog"]] (0 + 1) false w2 in
         (r, w3, ([find_query_for "cat"] ++ t2 ++ t3)%list))
      /\ exists t2', t2 = (t2' ++ [ESleep 1])%list.
Proof.
  assert (H1 : Str.is_empty (Str.strip "cat") = false) by reflexivity.
  assert (H2 : check (Str.strip "cat") lacks_word
               = (Ok false, lacks_word_checked, [find_query_for "cat"]))
    by (vm_compute; reflexivity).
  split; [exact H1|]. split; [exact H2|].
  exact (sleep_after_word_not_skipped Scripted.world Scripted.requests_post
           Scripted.generate_content Tiny.loads Tiny.dumps
           "cat" [] [["dog"]] 0 "EnglishAI" "EnglishAI" DEFAULT_GEMINI_MODEL
           false lacks_word false lacks_word_checked [find_query_for "cat"] H1 H2).
Defined.

Lemma noisy_text_none_decodes :
  Tiny.loads (Str.strip noisy_text) = None
  /\ none_decodes Tiny.loads (Spans.balanced_spans (Str.strip noisy_text))
  /\ none_decodes Tiny.loads (Spans.findall_nonnested (Str.strip noisy_text)).
Proof.
  split; [reflexivity|].
  split; intros c Hc; vm_compute in Hc; destruct Hc as [<-|[]]; reflexivity.
Defined.

(** C7 as stated fails: nothing decodes in [noisy_text], and the text of the
    error is the trimmed text, not the text that was given. *)
Lemma extract_error_text_is_trimmed :
  Tiny.loads (Str.strip noisy_text) = None
  /\ none_decodes Tiny.loads (Spans.balanced_spans (Str.strip noisy_text))
  /\ none_decodes Tiny.loads (Spans.findall_nonnested (Str.strip noisy_text))
  /\ find_json_in_text Tiny.loads noisy_text
     = Raise (ValueError (no_json_message ++ "see {oops} here"))
  /\ find_json_in_text Tiny.loads noisy_text
     <> Raise (ValueError (no_json_message ++ noisy_text)).
Proof.
  destruct noisy_text_none_decodes as (H1 & H2 & H3).
  split; [exact H1|]. split; [exact H2|]. split; [exact H3|].
  split; [reflexivity|].
  vm_compute. discriminate.
Qed.

(** The error of the extraction of [noisy_text]. *)
Lemma extract_fails_with_trimmed_text_witness :
  Tiny.loads (Str.strip noisy_text) = None
  /\ none_decodes Tiny.loads (Spans.balanced_spans (Str.strip noisy_text))
  /\ none_decodes Tiny.loads (Spans.findall_nonnested (Str.strip noisy_text))
  /\ find_json_in_text Tiny.loads noisy_text
     = Raise (ValueError (no_json_message ++ Str.strip noisy_text)).
Proof.
  destruct noisy_text_none_decodes as (H1 & H2 & H3).
  split; [exact H1|]. split; [exact H2|]. split; [exact H3|].
  exact (extract_fails_with_trimmed_text Tiny.loads noisy_text H1 H2 H3).
Defined.

(** The extraction of a bare number. *)
Lemma extract_returns_non_mapping_witness :
  Tiny.loads (Str.strip " 42 ") = Some (JInt 42)
  /\ is_mapping (JInt 42) = false
  /\ find_json_in_text Tiny.loads " 42 " = Ok (JInt 42).
Proof.
  assert (H1 : Tiny.loads (Str.strip " 42 ") = Some (JInt 42)) by reflexivity.
  assert (H2 : is_mapping (JInt 42) = false) by reflexivity.
  split; [exact H1|]. split; [exact H2|].
  exact (extract_returns_non_mapping Tiny.loads " 42 " (JInt 42) H1 H2).
Defined.

(** The world without state: two words, both generated; the preview run
    posts no note and makes the read-side calls of the normal run. *)
Lemma preview_issues_no_add_note_witness :
  insertion_inert unit Stateless.requests_post
  /\ filter is_add_note (effects (Stateless.run [["cat"]; ["dog"]] true)) = []
  /\ read_calls (effects (Stateless.run [["cat"]; ["dog"]] true))
     = read_calls (effects (Stateless.run [["cat"]; ["dog"]] false)).
Proof.
  assert (H : insertion_inert unit Stateless.requests_post)
    by (intros fields deck model w; reflexivity).
  split; [exact H|]. split.
  - exact (proj1 (preview_issues_no_add_note unit Stateless.requests_post
                    Stateless.generate_content Tiny.loads Tiny.dumps)
                 [["cat"]; ["dog"]] "EnglishAI" "EnglishAI" DEFAULT_GEMINI_MODEL tt).
  - exact (proj2 (proj2 (proj2 (proj2
           (preview_issues_no_add_note unit Stateless.requests_post
              Stateless.generate_content Tiny.loads Tiny.dumps))))
                 H [["cat"]; ["dog"]] "EnglishAI" "EnglishAI" DEFAULT_GEMINI_MODEL tt).
Defined.

(* ===================================================================== *)
(** * More concrete runs *)

Import Cases.

(** The value extracted from [pet_reply] is decoded from a piece of it. *)
Lemma extract_result_from_piece_witness :
  find_json_in_text Tiny.loads pet_reply = Ok (JObject [("meaning", JString "a pet")])
  /\ exists c, piece_of c (Str.strip pet_reply)
               /\ Tiny.loads c = Some (JObject [("meaning", JString "a pet")]).
Proof.
  assert (H : find_json_in_text Tiny.loads pet_reply
              = Ok (JObject [("meaning", JString "a pet")])) by reflexivity.
  split; [exact H|].
  exact (extract_result_from_piece Tiny.loads pet_reply _ H).
Defined.

(** Plain prose has no candidate. *)
Lemma extract_without_brace_fails_witness :
  Str.open_free (Str.strip "  no json at all ") = true
  /\ Tiny.loads (Str.strip "  no json at all ") = None
  /\ find_json_in_text Tiny.loads "  no json at all "
     = Raise (ValueError (no_json_message ++ Str.strip "  no json at all ")).
Proof.
  assert (H1 : Str.open_free (Str.strip "  no json at all ") = true) by reflexivity.
  assert (H2 : Tiny.loads (Str.strip "  no json at all ") = None) by reflexivity.
  split; [exact H1|]. split; [exact H2|].
  exact (extract_without_brace_fails Tiny.loads "  no json at all " H1 H2).
Defined.

(** After the brace that is never closed the scan finds nothing, and the
    fallback pattern finds the object. *)
Lemma extract_unclosed_brace_witness :
  Str.strip unclosed_reply = EmptyString ++ String "{" (" " ++ pet_span)
  /\ Str.open_free EmptyString = true
  /\ Str.is_open "{" = true
  /\ Spans.close_span 0 (" " ++ pet_span) = None
  /\ Tiny.loads (Str.strip unclosed_reply) = None
  /\ scan Tiny.loads (Str.strip unclosed_reply) = None
  /\ find_json_in_text Tiny.loads unclosed_reply
     = Ok (JObject [("meaning", JString "a pet")]).
Proof.
  assert (H1 : Str.strip unclosed_reply = EmptyString ++ String "{" (" " ++ pet_span))
    by reflexivity.
  assert (H2 : Str.open_free EmptyString = true) by reflexivity.
  assert (H3 : Str.is_open "{" = true) by reflexivity.
  assert (H4 : Spans.close_span 0 (" " ++ pet_span) = None) by reflexivity.
  assert (H5 : Tiny.loads (Str.strip unclosed_reply) = None) by reflexivity.
  split; [exact H1|]. split; [exact H2|]. split; [exact H3|].
  split; [exact H4|]. split; [exact H5|].
  exact (extract_unclosed_brace Tiny.loads unclosed_reply EmptyString "{"
           (" " ++ pet_span) H1 H2 H3 H4 H5).
Defined.

(** An object without [result]: [False], and no entry in the log. *)
Lemma note_exists_missing_result_witness :
  Scripted.requests_post ANKI_CONNECT_URL
    (find_payload "cat" "EnglishAI" "EnglishAI") answers_empty_object
  = (Response 200 "{}", silent)
  /\ http_ok 200 = true
  /\ Tiny.loads "{}" = Some (JObject [])
  /\ Dict.get (V := json) [] "result" = None
  /\ check "cat" answers_empty_object = (Ok false, silent, [find_query_for "cat"]).
Proof.
  assert (H1 : Scripted.requests_post ANKI_CONNECT_URL
                 (find_payload "cat" "EnglishAI" "EnglishAI") answers_empty_object
               = (Response 200 "{}", silent)) by reflexivity.
  assert (H2 : http_ok 200 = true) by reflexivity.
  assert (H3 : Tiny.loads "{}" = Some (JObject [])) by reflexivity.
  assert (H4 : Dict.get (V := json) [] "result" = None) by reflexivity.
  split; [exact H1|]. split; [exact H2|]. split; [exact H3|]. split; [exact H4|].
  exact (note_exists_missing_result Scripted.world Scripted.requests_post Tiny.loads
           "cat" "EnglishAI" "EnglishAI" answers_empty_object 200 "{}" [] silent
           H1 H2 H3 H4).
Defined.

(** One identifier together with an error: [True]. *)
Lemma note_exists_ignores_error_field_witness :
  Scripted.requests_post ANKI_CONNECT_URL
    (find_payload "cat" "EnglishAI" "EnglishAI") found_with_error
  = (Response 200 found_with_error_body, silent)
  /\ http_ok 200 = true
  /\ Tiny.loads found_with_error_body
     = Some (JObject [("result", JArray [JInt 1]); ("error", JString "boom")])
  /\ Dict.get [("result", JArray [JInt 1]); ("error", JString "boom")] "result"
     = Some (JArray [JInt 1])
  /\ check "cat" found_with_error = (Ok true, silent, [find_query_for "cat"]).
Proof.
  assert (H1 : Scripted.requests_post ANKI_CONNECT_URL
                 (find_payload "cat" "EnglishAI" "EnglishAI") found_with_error
               = (Response 200 found_with_error_body, silent)) by reflexivity.
  assert (H2 : http_ok 200 = true) by reflexivity.
  assert (H3 : Tiny.loads found_with_error_body
               = Some (JObject [("result", JArray [JInt 1]);
                                ("error", JString "boom")]))
    by (vm_compute; reflexivity).
  assert (H4 : Dict.get [("result", JArray [JInt 1]); ("error", JString "boom")]
                        "result" = Some (JArray [JInt 1])) by reflexivity.
  split; [exact H1|]. split; [exact H2|]. split; [exact H3|]. split; [exact H4|].
  exact (note_exists_ignores_error_field Scripted.world Scripted.requests_post
           Tiny.loads "cat" "EnglishAI" "EnglishAI" found_with_error 200
           found_with_error_body _ (JInt 1) [] silent H1 H2 H3 H4).
Defined.

(** The note store accepts the note: the identifier is returned. *)
Lemma add_anki_note_returns_result_witness :
  Scripted.requests_post ANKI_CONNECT_URL
    (add_payload cat_fields "EnglishAI" "EnglishAI") accepts_note
  = (Scripted.added 7, silent)
  /\ add cat_fields accepts_note
     = (Ok (JInt 7), silent,
        [EPost ANKI_CONNECT_URL (add_payload cat_fields "EnglishAI" "EnglishAI")]).
Proof.
  assert (H1 : Scripted.requests_post ANKI_CONNECT_URL
                 (add_payload cat_fields "EnglishAI" "EnglishAI") accepts_note
               = (Response 200 (Tiny.dumps (JObject [("result", JInt 7);
                                                     ("error", JNull)])), silent))
    by reflexivity.
  assert (H2 : http_ok 200 = true) by reflexivity.
  assert (H3 : Tiny.loads (Tiny.dumps (JObject [("result", JInt 7); ("error", JNull)]))
               = Some (JObject [("result", JInt 7); ("error", JNull)]))
    by (vm_compute; reflexivity).
  assert (H4 : Dict.get [("result", JInt 7); ("error", JNull)] "error" = None
               \/ Dict.get [("result", JInt 7); ("error", JNull)] "error" = Some JNull)
    by (right; reflexivity).
  split; [exact H1|].
  exact (add_anki_note_returns_result Scripted.world Scripted.requests_post Tiny.loads
           cat_fields "EnglishAI" "EnglishAI" accepts_note 200 _ _ silent
           H1 H2 H3 H4).
Defined.

(** The note store refuses the note: its error is raised. *)
Lemma add_anki_note_raises_witness :
  add cat_fields refuses_note
  = (Raise (AnkiConnectError (JString "deck was not found")), silent,
     [EPost ANKI_CONNECT_URL (add_payload cat_fields "EnglishAI" "EnglishAI")]).
Proof.
  refine (proj2 (add_anki_note_raises Scripted.world Scripted.requests_post Tiny.loads
                   cat_fields "EnglishAI" "EnglishAI" refuses_note)
                200 _ [("result", JNull); ("error", JString "deck was not found")]
                (JString "deck was not found") eq_refl eq_refl _ eq_refl _).
  - vm_compute. reflexivity.
  - discriminate.
Defined.

(** One failure, then the answer: two calls and one sleep of one second. *)
Lemma generate_succeeds_after_failures_witness :
  (0 <= 1)%Q
  /\ Z.of_nat 1 <= 2
  /\ failures "cat" 1 flaky = Some ([BackendError "timeout"], flaky_retried)
  /\ attempt "cat" flaky_retried = (Ok pet_record, silent, [generation_of "cat"])
  /\ query "cat" 2 1 flaky
     = (Ok pet_record, silent,
        (retry_trace DEFAULT_GEMINI_MODEL (prompt_for "cat") (2 + 1) 1 0
                     [BackendError "timeout"]
           ++ [generation_of "cat"])%list)
  /\ List.length (generate_calls (effects (query "cat" 2 1 flaky))) = 2%nat
  /\ sleeps (effects (query "cat" 2 1 flaky))
     = map (fun i => ESleep (1 * inject_Z (0 + Z.of_nat i))%Q) (seq 1 1).
Proof.
  assert (H1 : (0 <= 1)%Q) by (unfold Qle; simpl; lia).
  assert (H2 : Z.of_nat 1 <= 2) by (simpl; lia).
  assert (H3 : failures "cat" 1 flaky = Some ([BackendError "timeout"], flaky_retried))
    by (vm_compute; reflexivity).
  assert (H4 : attempt "cat" flaky_retried
               = (Ok pet_record, silent, [generation_of "cat"]))
    by (vm_compute; reflexivity).
  split; [exact H1|]. split; [exact H2|]. split; [exact H3|]. split; [exact H4|].
  exact (generate_succeeds_after_failures Scripted.world Scripted.generate_content
           Tiny.loads Tiny.dumps "cat" DEFAULT_GEMINI_MODEL 2 1%Q 1%nat flaky
           [BackendError "timeout"] flaky_retried pet_record silent
           [generation_of "cat"] H1 H2 H3 H4).
Defined.

(** [retries = -1]: no call at all. *)
Lemma generate_negative_retries_witness :
  -1 < 0
  /\ query "cat" (-1) 1 flaky = (Raise (GeminiFailed (-1 + 1) None), flaky, []).
Proof.
  assert (H : -1 < 0) by lia.
  split; [exact H|].
  exact (generate_negative_retries Scripted.world Scripted.generate_content
           Tiny.loads Tiny.dumps "cat" DEFAULT_GEMINI_MODEL (-1) 1%Q flaky H).
Defined.

(** [backoff = -1]: the first failure ends the client with a
    [ValueError]. *)
Lemma generate_negative_backoff_witness :
  (-1 < 0)%Q
  /\ 0 <= 2
  /\ attempt "cat" silent = (Raise (BackendError "no reply"), silent, [generation_of "cat"])
  /\ query "cat" 2 (-1) silent
     = (Raise (ValueError "sleep length must be non-negative"), silent,
        [generation_of "cat";
         ELog WARNING (LRetry 1 (2 + 1) (BackendError "no reply") (-1 * inject_Z 1)%Q)]).
Proof.
  assert (H1 : (-1 < 0)%Q) by (unfold Qlt; simpl; lia).
  assert (H2 : 0 <= 2) by lia.
  assert (H3 : attempt "cat" silent
               = (Raise (BackendError "no reply"), silent, [generation_of "cat"]))
    by (vm_compute; reflexivity).
  split; [exact H1|]. split; [exact H2|]. split; [exact H3|].
  exact (generate_negative_backoff Scripted.world Scripted.generate_content
           Tiny.loads Tiny.dumps "cat" DEFAULT_GEMINI_MODEL 2 (-1)%Q silent
           (BackendError "no reply") silent [generation_of "cat"] H1 H2 H3).
Defined.

(** A bare number is extracted, and the attempt fails on it. *)
Lemma attempt_fails_on_non_mapping_witness :
  Scripted.generate_content DEFAULT_GEMINI_MODEL (prompt_for "cat") answers_number
  = (GenText (Some "42"), silent)
  /\ find_json_in_text Tiny.loads "42" = Ok (JInt 42)
  /\ is_mapping (JInt 42) = false
  /\ attempt "cat" answers_number
     = (Raise (AttributeError "object has no attribute 'get'"), silent,
        [generation_of "cat"]).
Proof.
  assert (H1 : Scripted.generate_content DEFAULT_GEMINI_MODEL (prompt_for "cat")
                 answers_number = (GenText (Some "42"), silent)) by reflexivity.
  assert (H2 : find_json_in_text Tiny.loads "42" = Ok (JInt 42)) by reflexivity.
  assert (H3 : is_mapping (JInt 42) = false) by reflexivity.
  split; [exact H1|]. split; [exact H2|]. split; [exact H3|].
  exact (attempt_fails_on_non_mapping Scripted.world Scripted.generate_content
           Tiny.loads Tiny.dumps DEFAULT_GEMINI_MODEL (prompt_for "cat")
           answers_number "42" silent (JInt 42) H1 H2 H3).
Defined.

(** A row of white space before a word. *)
Lemma blank_row_only_counts_witness :
  row_word ["   "; "ignored"] = None
  /\ rows_from [["   "; "ignored"]; ["cat"]] 0 false has_word
     = rows_from [["cat"]] (0 + 1) false has_word.
Proof.
  assert (H : row_word ["   "; "ignored"] = None) by reflexivity.
  split; [exact H|].
  exact (blank_row_only_counts Scripted.world Scripted.requests_post
           Scripted.generate_content Tiny.loads Tiny.dumps
           ["   "; "ignored"] [["cat"]] 0 "EnglishAI" "EnglishAI"
           DEFAULT_GEMINI_MODEL false has_word H).
Defined.

(** A word that the deck lacks and that is generated: one insertion, with
    its fields. *)
Lemma insertion_follows_generation_witness :
  check "cat" lacks_word = (Ok false, lacks_word_checked, [find_query_for "cat"])
  /\ filter is_add_note (effects (word_run "cat" 1 false lacks_word))
     = [EPost ANKI_CONNECT_URL (add_payload cat_fields "EnglishAI" "EnglishAI")].
Proof.
  assert (H : check "cat" lacks_word
              = (Ok false, lacks_word_checked, [find_query_for "cat"]))
    by (vm_compute; reflexivity).
  split; [exact H|].
  pose proof (insertion_follows_generation Scripted.world Scripted.requests_post
                Scripted.generate_content Tiny.loads Tiny.dumps
                "cat" 1 "EnglishAI" "EnglishAI" DEFAULT_GEMINI_MODEL
                lacks_word lacks_word_checked [find_query_for "cat"] H) as Hins.
  assert (Hq : query_gemini_for_word Scripted.world Scripted.generate_content
                 Tiny.loads Tiny.dumps "cat" DEFAULT_GEMINI_MODEL 2 1
                 lacks_word_checked
               = (Ok pet_record, {| Scripted.posts := [Scripted.added 7];
                                    Scripted.gens := [] |},
                  [generation_of "cat"]))
    by (vm_compute; reflexivity).
  rewrite Hq in Hins. exact Hins.
Defined.

(** The note of the record of [partial_reply]. *)
Lemma note_fields_of_record_witness :
  query "cat" 2 1 answers_partial = (Ok partial_record, silent, [generation_of "cat"])
  /\ exists m tr mt ex pt,
      partial_record
      = [("meaning", m); ("translation", tr); ("meaning_translation", mt);
         ("example_phrase", ex); ("phrase_translation", pt)]
      /\ note_fields "cat" partial_record
         = [("Word", "cat"); ("Meaning", m); ("translation", tr);
            ("Meaning Translation", mt); ("example phrase", ex);
            ("phrase translation", pt)].
Proof.
  assert (Hrun : query "cat" 2 1 answers_partial
                 = (Ok partial_record, silent, [generation_of "cat"]))
    by (vm_compute; reflexivity).
  split; [exact Hrun|].
  exact (note_fields_of_record Scripted.world Scripted.generate_content
           Tiny.loads Tiny.dumps "cat" DEFAULT_GEMINI_MODEL 2 1%Q answers_partial
           partial_record silent [generation_of "cat"] Hrun).
Defined.

(** [words.csv --dry-run]: the word is checked and generated, and no
    insertion is requested. *)
Lemma main_dry_run_no_insertion_witness :
  Config.arg_dry_run preview_args = true
  /\ filter is_add_note (pipeline_events (snd (main_run preview_args []))) = [].
Proof.
  assert (H : Config.arg_dry_run preview_args = true) by reflexivity.
  split; [exact H|].
  exact (main_dry_run_no_insertion unit Stateless.requests_post
           Stateless.generate_content Tiny.loads Tiny.dumps
           (fun _ w => (Ok tt, w)) (fun _ w => (Ok [Ok ["cat"]], w))
           preview_args [] tt H).
Defined.


(** A preview run over two words that the deck lacks: each word is checked
    and generated, in order. *)
Example preview_run_read_calls :
  read_calls (effects (Stateless.run [["cat"]; ["dog"]] true))
  = [find_query_for "cat"; generation_of "cat";
     find_query_for "dog"; generation_of "dog"].
Proof. vm_compute. reflexivity. Qed.

(** [words.csv --dry-run] on a file of one word that is read to its end:
    [main] ends normally and its pipeline is the preview run over the
    word. *)
Lemma main_outcome_witness :
  [Ok ["cat"]] = map Ok [["cat"]]
  /\ fst (fst (main_run preview_args [])) = Ok tt
  /\ pipeline_events (snd (main_run preview_args []))
     = effects (Stateless.run [["cat"]] true).
Proof.
  assert (H : [Ok ["cat"]] = map (@Ok (list string)) [["cat"]]) by reflexivity.
  split; [exact H|].
  exact (proj1 (main_outcome unit Stateless.requests_post Stateless.generate_content
                  Tiny.loads Tiny.dumps
                  (fun _ w => (Ok tt, w)) (fun _ w => (Ok [Ok ["cat"]], w))
                  preview_args [] tt)
               [["cat"]] H).
Defined.
